(** * FindDriveData: the appointment filter, the seen-slot table and the
      notification step of [FindDriveData.py]

    The development embeds the part of the script that runs once the
    browser has delivered the list of [btnSelectAppt] anchors: the two time
    helpers, [send_email], [initialize_database] and [run_scraper].

    Conventions of the embedding.
    - A Python [str] is a [string]; a character is read as the code point
      of the same number (0 .. 255).
    - A Python exception is a value of [exn]; a computation that may raise
      returns a [result].
    - The SQLite file, the SMTP server and the log are explicit state.
      Whether a database call or an SMTP call raises is decided by a
      schedule that the definitions take as an argument, so that the
      theorems can range over the schedules.
    - The browser part of [run_scraper] (lines 165-177) is represented by
      its outcome: the anchors found, or the exception raised.  The
      endless loop at the end of the script is represented by its first
      iterations, one per element of a list that says what each iteration
      meets. *)

From Stdlib Require Import List String Ascii ZArith Bool Lia DecimalString.
Import ListNotations.

Local Open Scope string_scope.
Local Open Scope Z_scope.

(** ** Exceptions and results *)

(** The exception classes the modelled code can raise.  Every one of them
    derives from [Exception]. *)
Inductive exn : Type :=
| ValueError          (* int(), datetime.strptime *)
| TypeError           (* None[:2] *)
| AttributeError      (* None.split *)
| sqlite3_Error       (* connect, execute, commit *)
| SMTPException       (* smtplib: starttls, login, send_message *)
| OSError             (* socket errors while connecting *)
| WebDriverException  (* selenium, before the loop *)
| UnicodeEncodeError. (* MIMEText on a lone surrogate; a ValueError *)

Inductive result (A : Type) : Type :=
| Ok (a : A)
| Raise (e : exn).
Arguments Ok {A} a.
Arguments Raise {A} e.

(** ** Python string primitives *)

Module Py.

(** A value read with [get_attribute]: [None] when the attribute is
    absent. *)
Definition attr : Type := option string.

Definition code (c : ascii) : Z := Z.of_N (N_of_ascii c).

Definition in_range (lo hi : Z) (c : ascii) : bool :=
  (lo <=? code c) && (code c <=? hi).

Definition is_digit (c : ascii) : bool := in_range 48 57 c.

Definition digit_value (c : ascii) : Z := code c - 48.

(** White space skipped by [int()]: the C white space, and the two
    Latin-1 characters that CPython first rewrites to a blank. *)
Definition int_space (c : ascii) : bool :=
  ((9 <=? code c) && (code c <=? 13)) || (code c =? 32)
  || (code c =? 133) || (code c =? 160).

(** White space of [str.strip()], [str.isspace()] and of [\s] in [re]. *)
Definition is_space (c : ascii) : bool :=
  int_space c || ((28 <=? code c) && (code c <=? 31)).

(** [s[:n]] and [s[n:]] for [n >= 0]. *)
Fixpoint slice_to (n : nat) (s : string) : string :=
  match n, s with
  | S k, String c r => String c (slice_to k r)
  | _, _ => ""
  end.

Fixpoint slice_from (n : nat) (s : string) : string :=
  match n, s with
  | S k, String _ r => slice_from k r
  | _, _ => s
  end.

Fixpoint drop_while (p : ascii -> bool) (s : string) : string :=
  match s with
  | String c r => if p c then drop_while p r else s
  | EmptyString => ""
  end.

Fixpoint all_chars (p : ascii -> bool) (s : string) : bool :=
  match s with
  | String c r => p c && all_chars p r
  | EmptyString => true
  end.

(** The digit part of an [int()] literal: decimal digits, single
    underscores between digits, then white space up to the end. *)
Fixpoint int_digits (acc : Z) (after_digit : bool) (s : string) : option Z :=
  match s with
  | EmptyString => if after_digit then Some acc else None
  | String c r =>
      if is_digit c then int_digits (10 * acc + digit_value c) true r
      else if Ascii.eqb c "_"
           then (if after_digit then int_digits acc false r else None)
           else if after_digit && all_chars int_space s then Some acc
                else None
  end.

(** [int(s)] for a [str]. *)
Definition int (s : string) : result Z :=
  let body := drop_while int_space s in
  let signed :=
    match body with
    | String "-" r => option_map Z.opp (int_digits 0 false r)
    | String "+" r => int_digits 0 false r
    | _ => int_digits 0 false body
    end in
  match signed with
  | Some z => Ok z
  | None => Raise ValueError
  end.

(** [str(z)] for an [int], as an f-string renders it. *)
Definition str_of_int (z : Z) : string := NilZero.string_of_int (Z.to_int z).

(** [s.split(",")[0]]. *)
Fixpoint split_comma_first (s : string) : string :=
  match s with
  | String c r => if Ascii.eqb c "," then "" else String c (split_comma_first r)
  | EmptyString => ""
  end.

(** Removes the trailing white space. *)
Fixpoint rstrip (s : string) : string :=
  match s with
  | String c r =>
      match rstrip r with
      | EmptyString => if is_space c then "" else String c ""
      | r' => String c r'
      end
  | EmptyString => ""
  end.

(** [s.strip()]. *)
Definition strip (s : string) : string := rstrip (drop_while is_space s).

(** [x in l] for a list of strings. *)
Definition mem (x : string) (l : list string) : bool :=
  existsb (String.eqb x) l.

(** ["\n"] and [sep.join(l)]. *)
Definition nl : string := String "010" "".

Fixpoint join (sep : string) (l : list string) : string :=
  match l with
  | [] => ""
  | [x] => x
  | x :: r => x ++ sep ++ join sep r
  end.

End Py.

(** ** datetime *)

Module Datetime.

Record datetime : Type := mk_datetime {
  year : Z; month : Z; day : Z;
  hour : Z; minute : Z; second : Z; microsecond : Z
}.

(** Lexicographic order on the fields, as [datetime.__ge__] on naive
    values. *)
Fixpoint lex_ge (a b : list Z) : bool :=
  match a, b with
  | x :: a', y :: b' => if x =? y then lex_ge a' b' else y <? x
  | _, _ => true
  end.

Definition fields (d : datetime) : list Z :=
  [year d; month d; day d; hour d; minute d; second d; microsecond d].

Definition ge (a b : datetime) : bool := lex_ge (fields a) (fields b).

(** Minutes since midnight. *)
Definition time_of_day (d : datetime) : Z := 60 * hour d + minute d.

(** The directive [%I]: [1[0-2]|0[1-9]|[1-9]], the alternatives tried
    in this order. *)
Definition directive_I (s : string) : option (Z * string) :=
  match s with
  | String c (String c' r) =>
      if Ascii.eqb c "1" && Py.in_range 48 50 c'
      then Some (10 + Py.digit_value c', r)
      else if Ascii.eqb c "0" && Py.in_range 49 57 c'
      then Some (Py.digit_value c', r)
      else if Py.in_range 49 57 c
      then Some (Py.digit_value c, String c' r)
      else None
  | String c EmptyString =>
      if Py.in_range 49 57 c then Some (Py.digit_value c, "") else None
  | EmptyString => None
  end.

(** The directive [%M]: [[0-5]\d|\d]. *)
Definition directive_M (s : string) : option (Z * string) :=
  match s with
  | String c r =>
      if Py.is_digit c then
        match r with
        | String c' r' =>
            if Py.in_range 48 53 c && Py.is_digit c'
            then Some (10 * Py.digit_value c + Py.digit_value c', r')
            else Some (Py.digit_value c, r)
        | EmptyString => Some (Py.digit_value c, r)
        end
      else None
  | EmptyString => None
  end.

(** The directive [%p] in the C locale, matched without regard to case:
    [false] for AM, [true] for PM. *)
Definition directive_p (s : string) : option (bool * string) :=
  match s with
  | String a (String m r) =>
      if Ascii.eqb m "M" || Ascii.eqb m "m" then
        if Ascii.eqb a "A" || Ascii.eqb a "a" then Some (false, r)
        else if Ascii.eqb a "P" || Ascii.eqb a "p" then Some (true, r)
        else None
      else None
  | _ => None
  end.

(** The 24-hour value of a 12-hour clock reading. *)
Definition hour24 (h : Z) (pm : bool) : Z :=
  if pm then (if h =? 12 then 12 else h + 12)
  else (if h =? 12 then 0 else h).

(** [datetime.strptime(s, "%I:%M %p")]: the pattern
    [%I:%M\s+%p] must match from the start and leave nothing over; the
    date fields take their defaults. *)
Definition strptime (s : string) : result datetime :=
  match directive_I s with
  | Some (h, String colon r1) =>
      if Ascii.eqb colon ":" then
        match directive_M r1 with
        | Some (m, String w r2) =>
            if Py.is_space w then
              match directive_p (Py.drop_while Py.is_space r2) with
              | Some (pm, EmptyString) =>
                  Ok (mk_datetime 1900 1 1 (hour24 h pm) m 0 0)
              | _ => Raise ValueError
              end
            else Raise ValueError
        | _ => Raise ValueError
        end
      else Raise ValueError
  | _ => Raise ValueError
  end.

End Datetime.

(** ** Configuration *)

Definition WEEKDAY_START_TIME : string := "04:30 PM".
Definition WEEKEND_START_TIME : string := "09:00 AM".
Definition SENDER_EMAIL : string := "your_email@gmail.com".
Definition RECIPIENT_EMAILS : list string :=
  ["recipient1@example.com"; "recipient2@example.com"].
Definition LOGIN_LINK : string := "https://example.com/login".

(** ** The time helpers *)

(** [is_time_greater_or_equal(time1, time2)]. *)
Definition is_time_greater_or_equal (time1 time2 : string) : result bool :=
  match Datetime.strptime time1 with
  | Raise e => Raise e
  | Ok time1_dt =>
      match Datetime.strptime time2 with
      | Raise e => Raise e
      | Ok time2_dt => Ok (Datetime.ge time1_dt time2_dt)
      end
  end.

(** The expression ["AM" if hours < 12 else "PM"]. *)
Definition period_of (hours : Z) : string :=
  if hours <? 12 then "AM" else "PM".

(** The expression
    [hours if 1 <= hours <= 12 else hours - 12 if hours > 12 else 12]. *)
Definition hours_12 (hours : Z) : Z :=
  if (1 <=? hours) && (hours <=? 12) then hours
  else if 12 <? hours then hours - 12
  else 12.

(** [convert_24hr_to_12hr(time_str)]. *)
Definition convert_24hr_to_12hr (time_str : Py.attr) : result string :=
  match time_str with
  | None => Raise TypeError
  | Some time_str =>
      match Py.int (Py.slice_to 2 time_str) with
      | Raise e => Raise e
      | Ok hours =>
          let minutes := Py.slice_from 2 time_str in
          let period := period_of hours in
          let hours := hours_12 hours in
          Ok (Py.str_of_int hours ++ ":" ++ minutes ++ " " ++ period)
      end
  end.


(** ** State and exceptions *)

(** A computation over a state [S] that returns or raises; the state
    survives an exception. *)
Definition M (S A : Type) : Type := S -> result A * S.

Definition ret {S A : Type} (a : A) : M S A := fun s => (Ok a, s).

Definition raise {S A : Type} (e : exn) : M S A := fun s => (Raise e, s).

Definition lift {S A : Type} (r : result A) : M S A := fun s => (r, s).

Definition bind {S A B : Type} (m : M S A) (k : A -> M S B) : M S B :=
  fun s =>
    match m s with
    | (Ok a, s') => k a s'
    | (Raise e, s') => (Raise e, s')
    end.

(** [try: m  except Exception as e: h e]. *)
Definition try_except {S A : Type} (m : M S A) (h : exn -> M S A) : M S A :=
  fun s =>
    match m s with
    | (Ok a, s') => (Ok a, s')
    | (Raise e, s') => h e s'
    end.

Declare Scope py_scope.
Delimit Scope py_scope with py.
Notation "x <- m ;; k" := (bind m (fun x => k))
  (at level 61, m at next level, right associativity) : py_scope.
Notation "m ;; k" := (bind m (fun _ => k))
  (at level 61, right associativity) : py_scope.
Local Open Scope py_scope.

(** ** The table [appointments] of [appointments.db] *)

Module Sqlite.

Record row : Type := mk_row {
  id : Z;
  appointment_string : string;
  start_time_12hr : string;
  end_time_12hr : string;
  instructor : Py.attr;
  sent_email : Z
}.

(** The rows in insertion order and the last AUTOINCREMENT value. *)
Record table : Type := mk_table {
  rows : list row;
  last_id : Z
}.

Definition empty : table := mk_table [] 0.

(** An open connection: what the file holds, what the connection sees
    (the file plus its own uncommitted statements), and how many calls
    it has served. *)
Record connection : Type := mk_connection {
  committed : table;
  working : table;
  calls : nat
}.

Definition keys (t : table) : list string := map appointment_string (rows t).

(** [SELECT sent_email ... WHERE appointment_string = ?] then
    [fetchone()]. *)
Definition fetch_sent_email (t : table) (key : string) : option Z :=
  option_map sent_email
    (find (fun r => String.eqb (appointment_string r) key) (rows t)).

(** [INSERT OR IGNORE]: a row whose [appointment_string] is taken
    violates UNIQUE and is dropped. *)
Definition insert_or_ignore_row (t : table)
    (a s e : string) (i : Py.attr) (flag : Z) : table :=
  if Py.mem a (keys t) then t
  else mk_table (app (rows t) [mk_row (last_id t + 1) a s e i flag])
                (last_id t + 1).

Section Faults.

(** [fault n] tells whether the call number [n] on a connection raises
    [sqlite3.Error]. *)
Variable fault : nat -> bool.

(** One call on the connection: it raises and changes nothing, or it
    runs. *)
Definition call {A : Type} (f : connection -> A * connection)
  : M connection A :=
  fun c =>
    let served := mk_connection (committed c) (working c) (S (calls c)) in
    if fault (calls c) then (Raise sqlite3_Error, served)
    else let (a, c') := f served in (Ok a, c').

Definition select_sent_email (key : string) : M connection (option Z) :=
  call (fun c => (fetch_sent_email (working c) key, c)).

Definition insert_or_ignore (a s e : string) (i : Py.attr) (flag : Z)
  : M connection unit :=
  call (fun c =>
          (tt, mk_connection (committed c)
                 (insert_or_ignore_row (working c) a s e i flag)
                 (calls c))).

Definition commit : M connection unit :=
  call (fun c => (tt, mk_connection (working c) (working c) (calls c))).

(** [CREATE TABLE IF NOT EXISTS]: a table that does not exist yet and
    an empty one are the same [table]. *)
Definition create_table_if_not_exists : M connection unit :=
  call (fun c => (tt, c)).

(** [sqlite3.connect("appointments.db")] on a file that holds [disk]. *)
Definition connect (disk : table) : result connection :=
  if fault O then Raise sqlite3_Error
  else Ok (mk_connection disk disk 1).

End Faults.

(** [conn.close()]: the file keeps what was committed. *)
Definition close (c : connection) : table := committed c.

End Sqlite.

(** ** Mail, log and the world outside the process *)

Record message : Type := mk_message {
  msg_from : string;
  msg_to : string;
  msg_subject : string;
  msg_body : string
}.

(** What the SMTP server does in one session: the exception, if any,
    raised while connecting, by [starttls], by [login] and by
    [send_message]. *)
Record smtp_behaviour : Type := mk_smtp {
  on_connect : option exn;
  on_starttls : option exn;
  on_login : option exn;
  on_send_message : option exn
}.

Definition smtp_accepts : smtp_behaviour := mk_smtp None None None None.

(** The logging calls of the modelled code, one constructor per call. *)
Inductive log_record : Type :=
| INFO_email_sent
| ERROR_failed_to_send_email (e : exn)
| INFO_no_new_appointments
| ERROR_in_scraper (e : exn)
| ERROR_traceback.

Record world : Type := mk_world {
  disk : Sqlite.table;          (* appointments.db *)
  outbox : list message;        (* messages the server accepted *)
  log : list log_record         (* app.log *)
}.

Definition logging (r : log_record) : M world unit :=
  fun w => (Ok tt, mk_world (disk w) (outbox w) (app (log w) [r])).

Definition smtp_step (o : option exn) : M world unit :=
  match o with
  | Some e => raise e
  | None => ret tt
  end.

Definition smtp_send_message (o : option exn) (m : message) : M world unit :=
  match o with
  | Some e => raise e
  | None => fun w => (Ok tt, mk_world (disk w) (app (outbox w) [m]) (log w))
  end.

(** [send_email(appointments)]. *)
Definition send_email (smtp : smtp_behaviour) (appointments : list string)
  : M world unit :=
  let subject := "Driving Lesson Openings Available" in
  let body := "Here are the available appointments:" ++ Py.nl ++ Py.nl
              ++ Py.join Py.nl appointments in
  let body := body ++ Py.nl ++ Py.nl ++ "You can log in here:" ++ Py.nl
              ++ LOGIN_LINK in
  let message :=
    mk_message SENDER_EMAIL (Py.join ", " RECIPIENT_EMAILS) subject body in
  try_except
    (smtp_step (on_connect smtp) ;;
     smtp_step (on_starttls smtp) ;;
     smtp_step (on_login smtp) ;;
     smtp_send_message (on_send_message smtp) message ;;
     logging INFO_email_sent)
    (fun e => logging (ERROR_failed_to_send_email e)).

(** ** The scraper *)

(** One [btnSelectAppt] anchor, by the four attributes the loop reads. *)
Record element : Type := mk_element {
  data_appointmentdatelongstring : Py.attr;
  data_starttime : Py.attr;
  data_endtime : Py.attr;
  data_instructor : Py.attr
}.

(** How an f-string renders an attribute. *)
Definition fmt (a : Py.attr) : string :=
  match a with
  | Some s => s
  | None => "None"
  end.

Section Scraper.

Variable fault : nat -> bool.
Variable smtp : smtp_behaviour.

(** [initialize_database()]. *)
Definition initialize_database (d : Sqlite.table)
  : result Sqlite.connection :=
  match Sqlite.connect fault d with
  | Raise e => Raise e
  | Ok conn =>
      match (Sqlite.create_table_if_not_exists fault ;;
             Sqlite.commit fault) conn with
      | (Ok _, conn') => Ok conn'
      | (Raise e, _) => Raise e
      end
  end.

(** The body of [for element in date_elements]; the value is the list
    [appointments_to_send] after the iteration. *)
Definition loop_body (element : element) (appointments_to_send : list string)
  : M Sqlite.connection (list string) :=
  let appointment_string := data_appointmentdatelongstring element in
  start_time <- lift (convert_24hr_to_12hr (data_starttime element)) ;;
  end_time <- lift (convert_24hr_to_12hr (data_endtime element)) ;;
  let instructor := data_instructor element in
  match appointment_string with
  | None => raise AttributeError
  | Some appointment_string =>
      let day_of_week := Py.strip (Py.split_comma_first appointment_string) in
      let start_time_limit :=
        if Py.mem day_of_week ["Sat"; "Sun"]
        then WEEKEND_START_TIME else WEEKDAY_START_TIME in
      late <- lift (is_time_greater_or_equal start_time start_time_limit) ;;
      if negb late then ret appointments_to_send
      else
        fetched <- Sqlite.select_sent_email fault appointment_string ;;
        match fetched with
        | Some _ => ret appointments_to_send
        | None =>
            let appointments_to_send :=
              app appointments_to_send
                [appointment_string ++ " | Instructor: " ++ fmt instructor] in
            Sqlite.insert_or_ignore fault
              appointment_string start_time end_time instructor 1 ;;
            Sqlite.commit fault ;;
            ret appointments_to_send
        end
  end.

(** The loop of lines 178-201. *)
Fixpoint for_loop (date_elements : list element)
    (appointments_to_send : list string)
  : M Sqlite.connection (list string) :=
  match date_elements with
  | [] => ret appointments_to_send
  | element :: rest =>
      appointments_to_send <- loop_body element appointments_to_send ;;
      for_loop rest appointments_to_send
  end.

(** The [try] block of [run_scraper].  [page] is the outcome of the
    browser part (lines 165-177): the anchors found, or the exception
    raised on the way. *)
Definition try_block (page : result (list element))
    (conn : Sqlite.connection) (w : world)
  : result unit * Sqlite.connection * world :=
  match page with
  | Raise e => (Raise e, conn, w)
  | Ok date_elements =>
      match for_loop date_elements [] conn with
      | (Raise e, conn') => (Raise e, conn', w)
      | (Ok appointments_to_send, conn') =>
          match appointments_to_send with
          | _ :: _ =>
              let (r, w') := send_email smtp appointments_to_send w in
              (r, conn', w')
          | [] =>
              let (r, w') := logging INFO_no_new_appointments w in
              (r, conn', w')
          end
      end
  end.

(** [run_scraper()]: [initialize_database] runs before the [try]; the
    [except] clause logs; the [finally] clause closes the connection. *)
Definition run_scraper (page : result (list element)) : M world unit :=
  fun w =>
    match initialize_database (disk w) with
    | Raise e => (Raise e, w)
    | Ok conn =>
        let '(r, conn', w') := try_block page conn w in
        let w'' :=
          match r with
          | Ok _ => w'
          | Raise e =>
              snd ((logging (ERROR_in_scraper e) ;; logging ERROR_traceback) w')
          end in
        (Ok tt, mk_world (Sqlite.close conn') (outbox w'') (log w''))
    end.

End Scraper.

(** ** The pipeline in the words of its description

    The filter is described as: apply the time rule, ask the store whether
    the identifier is new, keep the record if it is.  The definitions below
    say that without the connection; the theorems relate them to
    [for_loop]. *)

(** The time rule of one anchor, lines 181-189 without the store: whether
    the start time reaches the limit of its day, or the exception raised. *)
Definition time_rule (el : element) : result bool :=
  match convert_24hr_to_12hr (data_starttime el) with
  | Raise e => Raise e
  | Ok start_time =>
      match convert_24hr_to_12hr (data_endtime el) with
      | Raise e => Raise e
      | Ok _ =>
          match data_appointmentdatelongstring el with
          | None => Raise AttributeError
          | Some a =>
              is_time_greater_or_equal start_time
                (if Py.mem (Py.strip (Py.split_comma_first a)) ["Sat"; "Sun"]
                 then WEEKEND_START_TIME else WEEKDAY_START_TIME)
          end
      end
  end.

(** The identifier of an anchor and the line it contributes to the mail. *)
Definition ident (el : element) : string :=
  fmt (data_appointmentdatelongstring el).

Definition entry (el : element) : string :=
  ident el ++ " | Instructor: " ++ fmt (data_instructor el).

(** The accepted and novel records of a batch, given the identifiers
    already seen. *)
Fixpoint novel_accepted (seen : list string) (batch : list element)
  : list element :=
  match batch with
  | [] => []
  | el :: rest =>
      match time_rule el with
      | Ok true =>
          if Py.mem (ident el) seen then novel_accepted seen rest
          else el :: novel_accepted (app seen [ident el]) rest
      | _ => novel_accepted seen rest
      end
  end.

(** [a] keeps some elements of [b], in the order of [b]. *)
Inductive subseq {A : Type} : list A -> list A -> Prop :=
| subseq_nil : subseq [] []
| subseq_skip (x : A) (a b : list A) : subseq a b -> subseq a (x :: b)
| subseq_keep (x : A) (a b : list A) : subseq a b -> subseq (x :: a) (x :: b).

(** A 12-hour clock reading. *)
Record time12 : Type := mk_time12 {
  hour12 : Z;
  minute12 : Z;
  pm12 : bool
}.

Definition well_formed12 (t : time12) : Prop :=
  1 <= hour12 t <= 12 /\ 0 <= minute12 t <= 59.

(** Minutes since midnight: 12 AM is hour 0 and 12 PM is hour 12. *)
Definition minutes_since_midnight (t : time12) : Z :=
  60 * ((hour12 t) mod 12 + (if pm12 t then 12 else 0)) + minute12 t.

(** The digits of an hour or a minute, with or without a leading zero. *)
Definition two_digits (pad : bool) (z : Z) : string :=
  if pad && (z <? 10) then "0" ++ Py.str_of_int z else Py.str_of_int z.

(** How a reading is written: leading zeros or not, the white space
    before the meridiem, and the case of its two letters. *)
Record spelling : Type := mk_spelling {
  pad_hour : bool;
  pad_minute : bool;
  gap : string;
  upper_first : bool;
  upper_second : bool
}.

(** The white space is not empty. *)
Definition well_spelled (sp : spelling) : Prop :=
  gap sp <> "" /\ Py.all_chars Py.is_space (gap sp) = true.

Definition meridiem (sp : spelling) (pm : bool) : string :=
  String (if pm then (if upper_first sp then "P" else "p")
          else (if upper_first sp then "A" else "a"))%char
    (String (if upper_second sp then "M" else "m")%char "").

(** The written form, as in ["03:15 PM"] or ["3:15 pm"]. *)
Definition write12 (sp : spelling) (t : time12) : string :=
  two_digits (pad_hour sp) (hour12 t) ++ ":"
  ++ two_digits (pad_minute sp) (minute12 t) ++ gap sp ++ meridiem sp (pm12 t).

(** The two usual spellings: ["03:05 PM"] and ["3:05 PM"]. *)
Definition padded : spelling := mk_spelling true true " " true true.
Definition unpadded_hour : spelling := mk_spelling false true " " true true.

(** The shapes of digits the directives [%I] and [%M] take. *)
Definition hour_digits (s : string) (h : Z) : bool :=
  match s with
  | String c EmptyString => Py.in_range 49 57 c && (Py.digit_value c =? h)
  | String c (String c' EmptyString) =>
      (Ascii.eqb c "1" && Py.in_range 48 50 c' && (10 + Py.digit_value c' =? h))
      || (Ascii.eqb c "0" && Py.in_range 49 57 c' && (Py.digit_value c' =? h))
  | _ => false
  end.

Definition minute_digits (s : string) (m : Z) : bool :=
  match s with
  | String c EmptyString => Py.is_digit c && (Py.digit_value c =? m)
  | String c (String c' EmptyString) =>
      Py.in_range 48 53 c && Py.is_digit c'
      && (10 * Py.digit_value c + Py.digit_value c' =? m)
  | _ => false
  end.

(** Every hour from 1 to 12 and every minute from 0 to 59 is written in
    such a shape, padded or not. *)
Definition all_written : bool :=
  forallb (fun pad =>
    forallb (fun h => hour_digits (two_digits pad (Z.of_nat h)) (Z.of_nat h))
      (seq 1 12)
    && forallb (fun m => minute_digits (two_digits pad (Z.of_nat m)) (Z.of_nat m))
         (seq 0 60))
    [true; false].

(** Whether an anchor passes the time rule. *)
Definition passes (el : element) : bool :=
  match time_rule el with
  | Ok true => true
  | _ => false
  end.

(** The row [for_loop] inserts for an accepted anchor. *)
Definition row_of (n : Z) (el : element) : Sqlite.row :=
  Sqlite.mk_row n (ident el)
    (match convert_24hr_to_12hr (data_starttime el) with Ok s => s | _ => "" end)
    (match convert_24hr_to_12hr (data_endtime el) with Ok s => s | _ => "" end)
    (data_instructor el) 1.

(** No statement of the connection is waiting for a commit. *)
Definition clean (c : Sqlite.connection) : Prop :=
  Sqlite.committed c = Sqlite.working c.

(** The connection after one more call. *)
Definition served (c : Sqlite.connection) : Sqlite.connection :=
  Sqlite.mk_connection (Sqlite.committed c) (Sqlite.working c) (S (Sqlite.calls c)).

(** The table after the row of [el] is appended. *)
Definition with_row (t : Sqlite.table) (el : element) : Sqlite.table :=
  Sqlite.mk_table (Sqlite.rows t ++ [row_of (Sqlite.last_id t + 1) el])%list
    (Sqlite.last_id t + 1).

Section Outcomes.

Variable fault : nat -> bool.

(** The seven ways one iteration of the loop can go, by the time rule,
    the table and the failure schedule. *)
Inductive iteration (el : element) (apps : list string) (c : Sqlite.connection)
  : result (list string) -> Sqlite.connection -> Prop :=
| it_raise (e : exn) :
    time_rule el = Raise e ->
    iteration el apps c (Raise e) c
| it_reject :
    time_rule el = Ok false ->
    iteration el apps c (Ok apps) c
| it_select_fails :
    time_rule el = Ok true ->
    fault (Sqlite.calls c) = true ->
    iteration el apps c (Raise sqlite3_Error) (served c)
| it_seen :
    time_rule el = Ok true ->
    fault (Sqlite.calls c) = false ->
    Py.mem (ident el) (Sqlite.keys (Sqlite.working c)) = true ->
    iteration el apps c (Ok apps) (served c)
| it_insert_fails :
    time_rule el = Ok true ->
    fault (Sqlite.calls c) = false ->
    Py.mem (ident el) (Sqlite.keys (Sqlite.working c)) = false ->
    fault (S (Sqlite.calls c)) = true ->
    iteration el apps c (Raise sqlite3_Error) (served (served c))
| it_commit_fails :
    time_rule el = Ok true ->
    fault (Sqlite.calls c) = false ->
    Py.mem (ident el) (Sqlite.keys (Sqlite.working c)) = false ->
    fault (S (Sqlite.calls c)) = false ->
    fault (S (S (Sqlite.calls c))) = true ->
    iteration el apps c (Raise sqlite3_Error)
      (Sqlite.mk_connection (Sqlite.committed c)
         (with_row (Sqlite.working c) el) (S (S (S (Sqlite.calls c)))))
| it_new :
    time_rule el = Ok true ->
    fault (Sqlite.calls c) = false ->
    Py.mem (ident el) (Sqlite.keys (Sqlite.working c)) = false ->
    fault (S (Sqlite.calls c)) = false ->
    fault (S (S (Sqlite.calls c))) = false ->
    iteration el apps c (Ok (apps ++ [entry el])%list)
      (Sqlite.mk_connection (with_row (Sqlite.working c) el)
         (with_row (Sqlite.working c) el) (S (S (S (Sqlite.calls c))))).

End Outcomes.

(** The first exception of an SMTP session, if any. *)
Definition first_failure (smtp : smtp_behaviour) : option exn :=
  match on_connect smtp, on_starttls smtp, on_login smtp, on_send_message smtp with
  | Some e, _, _, _ => Some e
  | None, Some e, _, _ => Some e
  | None, None, Some e, _ => Some e
  | None, None, None, o => o
  end.

(** ** Sample data *)

Module Sample.

(** A schedule on which the database never fails. *)
Definition no_fault (_ : nat) : bool := false.

(** The three records of the end-to-end scenario; the day of the week
    is the first comma-separated field of the identifier. *)
Definition slot_A : element :=
  mk_element (Some "Mon, A") (Some "1600") (Some "1700") (Some "Pat").
Definition slot_B : element :=
  mk_element (Some "Sat, B") (Some "0800") (Some "0900") (Some "Pat").
Definition slot_C : element :=
  mk_element (Some "Sun, C") (Some "1000") (Some "1100") (Some "Lee").

(** A record whose start time is not a number, and a weekday evening
    record. *)
Definition slot_bad : element :=
  mk_element (Some "Mon, X") (Some "ab30") (Some "1700") (Some "Pat").
Definition slot_good : element :=
  mk_element (Some "Mon, G") (Some "1700") (Some "1800") (Some "Pat").

(** The same identifier as [slot_good], offered by someone else. *)
Definition slot_good_again : element :=
  mk_element (Some "Mon, G") (Some "1730") (Some "1830") (Some "Lee").

Definition fresh_world : world := mk_world Sqlite.empty [] [].

(** A connection on an empty file, after [initialize_database]. *)
Definition fresh_connection : Sqlite.connection :=
  Sqlite.mk_connection Sqlite.empty Sqlite.empty 3.

(** A connection on a file that already holds the row of [slot_good]. *)
Definition seen_connection : Sqlite.connection :=
  Sqlite.mk_connection (with_row Sqlite.empty slot_good)
    (with_row Sqlite.empty slot_good) 3.

(** A server that refuses the login. *)
Definition smtp_rejects_login : smtp_behaviour :=
  mk_smtp None None (Some SMTPException) None.

(** A schedule on which the ninth database call fails: after the three
    calls of [initialize_database] and the three calls for a first
    accepted record, the commit of a second accepted record. *)
Definition ninth_call_fails (n : nat) : bool := Nat.eqb n 8.

End Sample.

(** ** What makes the time handling of a record raise *)

(** The causes, in the order the loop meets them in lines 181-189: an
    attribute that is missing, an hour that [int] does not read, a
    converted start time that [strptime] does not read. *)
Inductive raises_at (el : element) : exn -> Prop :=
| start_time_missing :
    data_starttime el = None ->
    raises_at el TypeError
| start_hour_not_an_int (t : string) :
    data_starttime el = Some t ->
    Py.int (Py.slice_to 2 t) = Raise ValueError ->
    raises_at el ValueError
| end_time_missing (s : string) :
    convert_24hr_to_12hr (data_starttime el) = Ok s ->
    data_endtime el = None ->
    raises_at el TypeError
| end_hour_not_an_int (s t : string) :
    convert_24hr_to_12hr (data_starttime el) = Ok s ->
    data_endtime el = Some t ->
    Py.int (Py.slice_to 2 t) = Raise ValueError ->
    raises_at el ValueError
| identifier_missing (s s' : string) :
    convert_24hr_to_12hr (data_starttime el) = Ok s ->
    convert_24hr_to_12hr (data_endtime el) = Ok s' ->
    data_appointmentdatelongstring el = None ->
    raises_at el AttributeError
| start_time_not_a_reading (s s' a : string) :
    convert_24hr_to_12hr (data_starttime el) = Ok s ->
    convert_24hr_to_12hr (data_endtime el) = Ok s' ->
    data_appointmentdatelongstring el = Some a ->
    Datetime.strptime s = Raise ValueError ->
    raises_at el ValueError.

(** ** [send_email] on any Python string

    [string] holds the code points 0 .. 255.  The message of [send_email]
    is built from the appointment strings before the [try] block, and
    building it can fail on text outside that alphabet, so [send_email]
    is written once more over lists of code points. *)

Module Unicode.

(** A Python [str]: its code points, each at most 0x10FFFF. *)
Definition str : Type := list N.

Fixpoint of_string (s : string) : str :=
  match s with
  | EmptyString => []
  | String c r => N_of_ascii c :: of_string r
  end.

(** The code points U+D800 .. U+DFFF. *)
Definition is_surrogate (c : N) : bool :=
  ((55296 <=? c) && (c <=? 57343))%N.

(** Whether [MIMEText(s)] can encode [s]: it tries us-ascii, then utf-8,
    and utf-8 refuses exactly the surrogates. *)
Definition encodable (s : str) : bool :=
  forallb (fun c => negb (is_surrogate c)) s.

Fixpoint join (sep : str) (l : list str) : str :=
  match l with
  | [] => []
  | [x] => x
  | x :: r => app x (app sep (join sep r))
  end.

End Unicode.

Record text_message : Type := mk_text_message {
  text_from : Unicode.str;
  text_to : Unicode.str;
  text_subject : Unicode.str;
  text_body : Unicode.str
}.

(** The world of [send_email] with messages of any text. *)
Record mail_world : Type := mk_mail_world {
  file : Sqlite.table;
  sent : list text_message;
  journal : list log_record
}.

Definition journal_add (r : log_record) : M mail_world unit :=
  fun w => (Ok tt, mk_mail_world (file w) (sent w) (app (journal w) [r])).

Definition server_step (o : option exn) : M mail_world unit :=
  match o with
  | Some e => raise e
  | None => ret tt
  end.

Definition server_send_message (o : option exn) (m : text_message)
  : M mail_world unit :=
  match o with
  | Some e => raise e
  | None => fun w => (Ok tt, mk_mail_world (file w) (app (sent w) [m]) (journal w))
  end.

(** [send_email(appointments)], lines 105-121: the message is built, and
    [MIMEText] may raise, before the [try] block is entered. *)
Definition send_email_str (smtp : smtp_behaviour)
    (appointments : list Unicode.str) : M mail_world unit :=
  let subject := Unicode.of_string "Driving Lesson Openings Available" in
  let body :=
    app (Unicode.of_string
           ("Here are the available appointments:" ++ Py.nl ++ Py.nl))
      (Unicode.join (Unicode.of_string Py.nl) appointments) in
  let body :=
    app body
      (Unicode.of_string
         (Py.nl ++ Py.nl ++ "You can log in here:" ++ Py.nl ++ LOGIN_LINK)) in
  let message :=
    mk_text_message (Unicode.of_string SENDER_EMAIL)
      (Unicode.of_string (Py.join ", " RECIPIENT_EMAILS)) subject body in
  if Unicode.encodable body then
    try_except
      (server_step (on_connect smtp) ;;
       server_step (on_starttls smtp) ;;
       server_step (on_login smtp) ;;
       server_send_message (on_send_message smtp) message ;;
       journal_add INFO_email_sent)
      (fun e => journal_add (ERROR_failed_to_send_email e))
  else raise UnicodeEncodeError.

(** A message and a world of the alphabet of [string], as text. *)
Definition as_text (m : message) : text_message :=
  mk_text_message (Unicode.of_string (msg_from m))
    (Unicode.of_string (msg_to m)) (Unicode.of_string (msg_subject m))
    (Unicode.of_string (msg_body m)).

Definition as_mail_world (w : world) : mail_world :=
  mk_mail_world (disk w) (map as_text (outbox w)) (log w).

(** Whether the three calls of [initialize_database] are answered. *)
Definition opens (fault : nat -> bool) : bool :=
  negb (fault 0%nat || fault 1%nat || fault 2%nat).

(** ** The main loop *)

Definition RUN_INTERVAL_MINUTES : Z := 15.

(** The logging calls of the main loop, one constructor per call.  They
    go to the same file as the records of the cycle; they are kept in a
    list of their own. *)
Inductive app_record : Type :=
| INFO_starting_the_scraper
| INFO_scraper_completed_sleeping
| ERROR_application_crashed (e : exn)
| ERROR_crash_traceback.

(** The process: the world, the records of the main loop and the seconds
    spent in [time.sleep]. *)
Record process : Type := mk_process {
  env : world;
  app_log : list app_record;
  slept : Z
}.

(** What one iteration meets: the exception, if any, that starting the
    browser raises (lines 151-159), the failure schedule of the database
    connection, the SMTP server and the outcome of the browser part. *)
Record tick : Type := mk_tick {
  tick_driver : option exn;
  tick_fault : nat -> bool;
  tick_smtp : smtp_behaviour;
  tick_page : result (list element)
}.

(** [run_scraper()] from its first line: [webdriver.Chrome] raises before
    anything else is done, or the rest runs. *)
Definition run_scraper_from_start (t : tick) : M world unit :=
  match tick_driver t with
  | Some e => raise e
  | None => run_scraper (tick_fault t) (tick_smtp t) (tick_page t)
  end.

(** The exception with which the cycle of a tick ends, if it does: the
    browser does not start, or the database does not open. *)
Definition crash (t : tick) : option exn :=
  match tick_driver t with
  | Some e => Some e
  | None => if opens (tick_fault t) then None else Some sqlite3_Error
  end.

Definition completes (t : tick) : bool :=
  match crash t with
  | None => true
  | Some _ => false
  end.

(** The body of [while True]. *)
Definition main_iteration (t : tick) (p : process) : process :=
  match run_scraper_from_start t (env p) with
  | (Ok _, w) =>
      mk_process w
        (app (app_log p)
           [INFO_starting_the_scraper; INFO_scraper_completed_sleeping])
        (slept p + RUN_INTERVAL_MINUTES * 60)
  | (Raise e, w) =>
      mk_process w
        (app (app_log p)
           [INFO_starting_the_scraper; ERROR_application_crashed e;
            ERROR_crash_traceback])
        (slept p)
  end.

(** The first iterations of the loop, one per element of [ticks]. *)
Fixpoint main_loop (ticks : list tick) (p : process) : process :=
  match ticks with
  | [] => p
  | t :: rest => main_loop rest (main_iteration t p)
  end.

(** ** Vocabulary for the further properties *)

(** The message [send_email] hands to the server. *)
Definition notification (appointments : list string) : message :=
  mk_message SENDER_EMAIL (Py.join ", " RECIPIENT_EMAILS)
    "Driving Lesson Openings Available"
    (("Here are the available appointments:" ++ Py.nl ++ Py.nl
      ++ Py.join Py.nl appointments)
     ++ Py.nl ++ Py.nl ++ "You can log in here:" ++ Py.nl ++ LOGIN_LINK).

(** A four-character time string of the site: two digits of hour, two of
    minute. *)
Definition hhmm (h m : Z) : string := two_digits true h ++ two_digits true m.

(** What the filter reads in a time string: the hour and minute of the
    [datetime] that [strptime] builds from the converted string, or the
    exception. *)
Definition reading (time_str : string) : result (Z * Z) :=
  match convert_24hr_to_12hr (Some time_str) with
  | Raise e => Raise e
  | Ok s =>
      match Datetime.strptime s with
      | Raise e => Raise e
      | Ok d => Ok (Datetime.hour d, Datetime.minute d)
      end
  end.

(** The table of readings of the strings 0000 .. 9999: hours up to 24 and
    minutes up to 59 are read, hour 24 as hour 12, and the rest raises
    [ValueError]. *)
Definition reading_as_tabulated (h m : Z) : bool :=
  match reading (hhmm h m) with
  | Ok (h', m') =>
      (h <=? 24) && (m <=? 59) && (h' =? (if h =? 24 then 12 else h)) && (m' =? m)
  | Raise ValueError => negb ((h <=? 24) && (m <=? 59))
  | Raise _ => false
  end.

Definition all_readings_as_tabulated : bool :=
  forallb (fun h =>
    forallb (fun m => reading_as_tabulated (Z.of_nat h) (Z.of_nat m)) (seq 0 100))
    (seq 0 100).

(** Whether the identifier names a weekend day, as line 187 decides. *)
Definition on_weekend (appointment_string : string) : bool :=
  Py.mem (Py.strip (Py.split_comma_first appointment_string)) ["Sat"; "Sun"].

(** The limit of the day in minutes since midnight: 04:30 PM and
    09:00 AM. *)
Definition limit_minutes (appointment_string : string) : Z :=
  if on_weekend appointment_string then 540 else 990.

(** The table keeps its constraints: identifiers are unique, row ids are
    unique and none exceeds the AUTOINCREMENT counter. *)
Definition table_ok (t : Sqlite.table) : Prop :=
  NoDup (Sqlite.keys t)
  /\ NoDup (map Sqlite.id (Sqlite.rows t))
  /\ Forall (fun r => Sqlite.id r <= Sqlite.last_id t) (Sqlite.rows t).

(** [t'] holds the rows of [t], in order, and maybe more after them. *)
Definition extends (t t' : Sqlite.table) : Prop :=
  exists new, Sqlite.rows t' = (Sqlite.rows t ++ new)%list.

(** The rows appended for the records [l], the first with id [n + 1]. *)
Fixpoint new_rows (n : Z) (l : list element) : list Sqlite.row :=
  match l with
  | [] => []
  | el :: rest => row_of (n + 1) el :: new_rows (n + 1) rest
  end.

(** No call of the connection fails. *)
Definition answers (fault : nat -> bool) : Prop := forall k, fault k = false.

(** Every record of the batch has attributes the time rule can work
    with. *)
Definition readable (batch : list element) : Prop :=
  Forall (fun el => exists b, time_rule el = Ok b) batch.

Definition digit_strings_as_written : bool :=
  forallb (fun n =>
             String.eqb (Py.str_of_int (Z.of_nat n - 48))
               (String (ascii_of_nat n) ""))
    (seq 48 10)
  && forallb (fun n1 =>
       forallb (fun n2 =>
                  String.eqb
                    (Py.str_of_int (10 * (Z.of_nat n1 - 48) + (Z.of_nat n2 - 48)))
                    (String (ascii_of_nat n1) (String (ascii_of_nat n2) "")))
         (seq 48 10))
       (seq 49 9).

(** A string that can be compared: a well-formed reading in some
    spelling. *)
Definition written (s : string) : Prop :=
  exists t sp, well_formed12 t /\ well_spelled sp /\ s = write12 sp t.

(** * Properties *)

(** ** The table *)

Lemma mem_app (x : string) (l1 l2 : list string) :
  Py.mem x (l1 ++ l2)%list = Py.mem x l1 || Py.mem x l2.
Proof. unfold Py.mem. apply existsb_app. Qed.

Lemma mem_single (x y : string) : Py.mem x [y] = String.eqb x y.
Proof. unfold Py.mem. simpl. apply orb_false_r. Qed.

Lemma fetch_sent_email_mem (t : Sqlite.table) (key : string) :
  Sqlite.fetch_sent_email t key = None <-> Py.mem key (Sqlite.keys t) = false.
Proof.
  unfold Sqlite.fetch_sent_email, Sqlite.keys, Py.mem.
  induction (Sqlite.rows t) as [|r rs IH]; simpl.
  - tauto.
  - rewrite (String.eqb_sym key). destruct (String.eqb _ key); simpl.
    + split; discriminate.
    + exact IH.
Qed.

Lemma keys_insert (t : Sqlite.table) (a s e : string) (i : Py.attr) (f : Z) :
  Py.mem a (Sqlite.keys t) = false ->
  Sqlite.insert_or_ignore_row t a s e i f
  = Sqlite.mk_table (Sqlite.rows t ++ [Sqlite.mk_row (Sqlite.last_id t + 1) a s e i f])%list
      (Sqlite.last_id t + 1).
Proof. intros H. unfold Sqlite.insert_or_ignore_row. now rewrite H. Qed.

(** ** One iteration *)

(** Reduces the matches and record projections a case split exposes. *)
Ltac reduce_in H :=
  cbv beta iota zeta in H;
  cbn [Sqlite.calls Sqlite.working Sqlite.committed] in H.

Section Iteration.

Variable fault : nat -> bool.

Lemma loop_body_iteration (el : element) (apps : list string)
    (c : Sqlite.connection) :
  iteration fault el apps c
    (fst (loop_body fault el apps c)) (snd (loop_body fault el apps c)).
Proof.
  destruct (loop_body fault el apps c) as [r c'] eqn:E.
  cbn [fst snd].
  unfold loop_body, bind, lift, raise in E.
  destruct (convert_24hr_to_12hr (data_starttime el)) as [st|e] eqn:Hs.
  2:{ injection E as <- <-. apply it_raise. unfold time_rule. now rewrite Hs. }
  destruct (convert_24hr_to_12hr (data_endtime el)) as [en|e] eqn:He.
  2:{ injection E as <- <-. apply it_raise. unfold time_rule. now rewrite Hs, He. }
  destruct (data_appointmentdatelongstring el) as [a|] eqn:Ha.
  2:{ injection E as <- <-. apply it_raise. unfold time_rule. now rewrite Hs, He, Ha. }
  assert (Hid : ident el = a) by (unfold ident; now rewrite Ha).
  assert (Hen : entry el = a ++ " | Instructor: " ++ fmt (data_instructor el))
    by (unfold entry; now rewrite Hid).
  assert (Hrow : forall n, row_of n el = Sqlite.mk_row n a st en (data_instructor el) 1)
    by (intros n; unfold row_of; now rewrite Hid, Hs, He).
  destruct (is_time_greater_or_equal st _) as [late|e] eqn:Hc.
  2:{ injection E as <- <-. apply it_raise. unfold time_rule. now rewrite Hs, He, Ha. }
  assert (Ht : time_rule el = Ok late)
    by (unfold time_rule; now rewrite Hs, He, Ha).
  destruct late; cbn [negb] in E.
  2:{ injection E as <- <-. apply it_reject. exact Ht. }
  unfold Sqlite.select_sent_email, Sqlite.insert_or_ignore, Sqlite.commit,
    Sqlite.call, ret in E.
  cbn [Sqlite.calls Sqlite.working Sqlite.committed] in E.
  destruct (fault (Sqlite.calls c)) eqn:F0.
  { injection E as <- <-. apply it_select_fails; assumption. }
  destruct (Sqlite.fetch_sent_email (Sqlite.working c) a) as [z|] eqn:Hf;
    reduce_in E.
  { injection E as <- <-. apply it_seen; try assumption. rewrite Hid.
    destruct (Py.mem a (Sqlite.keys (Sqlite.working c))) eqn:Hm; [reflexivity|].
    apply fetch_sent_email_mem in Hm. congruence. }
  apply fetch_sent_email_mem in Hf.
  rewrite (keys_insert _ _ _ _ _ _ Hf), <- Hrow in E.
  rewrite <- Hid in Hf.
  destruct (fault (S (Sqlite.calls c))) eqn:F1; reduce_in E.
  { injection E as <- <-. apply it_insert_fails; assumption. }
  destruct (fault (S (S (Sqlite.calls c)))) eqn:F2; reduce_in E;
    injection E as <- <-.
  - apply it_commit_fails; assumption.
  - pose proof (it_new fault el apps c Ht F0 Hf F1 F2) as H.
    rewrite Hen in H. exact H.
Qed.

(** The four ways an iteration is forced by its premises. *)
Ltac by_iteration el apps c :=
  let H := fresh "H" in
  pose proof (loop_body_iteration el apps c) as H;
  destruct (loop_body fault el apps c) as [? ?];
  cbn [fst snd] in H; inversion H; subst; try congruence.

Lemma loop_body_raise (el : element) (apps : list string)
    (c : Sqlite.connection) (e : exn) :
  time_rule el = Raise e -> loop_body fault el apps c = (Raise e, c).
Proof. intros Ht. by_iteration el apps c. Qed.

Lemma loop_body_reject (el : element) (apps : list string)
    (c : Sqlite.connection) :
  time_rule el = Ok false -> loop_body fault el apps c = (Ok apps, c).
Proof. intros Ht. by_iteration el apps c. Qed.

Lemma loop_body_seen (el : element) (apps : list string)
    (c : Sqlite.connection) :
  time_rule el = Ok true ->
  fault (Sqlite.calls c) = false ->
  Py.mem (ident el) (Sqlite.keys (Sqlite.working c)) = true ->
  loop_body fault el apps c = (Ok apps, served c).
Proof. intros Ht F0 Hm. by_iteration el apps c. Qed.

Lemma loop_body_new (el : element) (apps : list string)
    (c : Sqlite.connection) :
  time_rule el = Ok true ->
  fault (Sqlite.calls c) = false ->
  fault (S (Sqlite.calls c)) = false ->
  fault (S (S (Sqlite.calls c))) = false ->
  Py.mem (ident el) (Sqlite.keys (Sqlite.working c)) = false ->
  loop_body fault el apps c
  = (Ok (apps ++ [entry el])%list,
     Sqlite.mk_connection (with_row (Sqlite.working c) el)
       (with_row (Sqlite.working c) el) (S (S (S (Sqlite.calls c))))).
Proof. intros Ht F0 F1 F2 Hm. by_iteration el apps c. Qed.

(** An iteration that raises leaves the file as it was; one that returns
    leaves a clean connection clean. *)
Lemma iteration_raise_committed (el : element) (apps : list string)
    (c c' : Sqlite.connection) (e : exn) :
  iteration fault el apps c (Raise e) c' ->
  Sqlite.committed c' = Sqlite.committed c.
Proof. intros H. inversion H; subst; reflexivity. Qed.

Lemma iteration_ok_clean (el : element) (apps out : list string)
    (c c' : Sqlite.connection) :
  iteration fault el apps c (Ok out) c' -> clean c -> clean c'.
Proof. intros H Hc. inversion H; subst; unfold clean in *; now cbn. Qed.

Lemma keys_with_row (t : Sqlite.table) (el : element) :
  Sqlite.keys (with_row t el) = (Sqlite.keys t ++ [ident el])%list.
Proof. unfold Sqlite.keys, with_row. cbn. now rewrite map_app. Qed.

(** What an iteration that returns did: nothing, or one new row. *)
Lemma iteration_ok (el : element) (apps out : list string)
    (c c' : Sqlite.connection) :
  iteration fault el apps c (Ok out) c' ->
  (passes el && negb (Py.mem (ident el) (Sqlite.keys (Sqlite.working c))) = false
   /\ out = apps /\ Sqlite.working c' = Sqlite.working c
   /\ Sqlite.committed c' = Sqlite.committed c)
  \/
  (passes el = true
   /\ Py.mem (ident el) (Sqlite.keys (Sqlite.working c)) = false
   /\ out = (apps ++ [entry el])%list
   /\ Sqlite.working c' = with_row (Sqlite.working c) el
   /\ Sqlite.committed c' = with_row (Sqlite.working c) el).
Proof.
  intros H. unfold passes. inversion H; subst;
    repeat match goal with
      | E : time_rule el = _ |- _ => rewrite E; clear E
      | E : Py.mem _ _ = _ |- _ => rewrite E; clear E
      end; cbn; auto 10.
Qed.

End Iteration.

(** ** The accepted and novel records *)

Lemma novel_accepted_skip (seen : list string) (el : element) (rest : list element) :
  passes el && negb (Py.mem (ident el) seen) = false ->
  novel_accepted seen (el :: rest) = novel_accepted seen rest.
Proof.
  unfold passes. cbn [novel_accepted].
  destruct (time_rule el) as [[|]|]; try reflexivity.
  destruct (Py.mem (ident el) seen); [reflexivity | discriminate].
Qed.

Lemma novel_accepted_keep (seen : list string) (el : element) (rest : list element) :
  passes el = true -> Py.mem (ident el) seen = false ->
  novel_accepted seen (el :: rest)
  = el :: novel_accepted (seen ++ [ident el])%list rest.
Proof.
  unfold passes. cbn [novel_accepted]. intros Hp Hm. rewrite Hm.
  destruct (time_rule el) as [[|]|]; try reflexivity; discriminate.
Qed.

Lemma novel_accepted_subseq (batch : list element) :
  forall seen, subseq (novel_accepted seen batch) batch.
Proof.
  induction batch as [|el rest IH]; intros seen; cbn [novel_accepted].
  - constructor.
  - destruct (time_rule el) as [[|]|]; try (apply subseq_skip, IH).
    destruct (Py.mem (ident el) seen).
    + apply subseq_skip, IH.
    + apply subseq_keep, IH.
Qed.

Lemma novel_accepted_seen (key : string) (batch : list element) :
  forall seen, Py.mem key seen = true ->
  filter (fun el => String.eqb (ident el) key) (novel_accepted seen batch) = [].
Proof.
  induction batch as [|el rest IH]; intros seen Hk; cbn [novel_accepted].
  - reflexivity.
  - destruct (time_rule el) as [[|]|]; try (apply IH, Hk).
    destruct (Py.mem (ident el) seen) eqn:Hm; [apply IH, Hk|].
    cbn [filter]. destruct (String.eqb (ident el) key) eqn:He.
    + apply String.eqb_eq in He. congruence.
    + apply IH. rewrite mem_app, Hk. reflexivity.
Qed.

Lemma novel_accepted_first (key : string) (batch : list element) :
  forall seen e1,
  Py.mem key seen = false ->
  find (fun el => String.eqb (ident el) key && passes el) batch = Some e1 ->
  filter (fun el => String.eqb (ident el) key) (novel_accepted seen batch) = [e1].
Proof.
  induction batch as [|el rest IH]; intros seen e1 Hk Hf; cbn [find] in Hf.
  - discriminate.
  - destruct (String.eqb (ident el) key) eqn:He; cbn [andb] in Hf.
    + apply String.eqb_eq in He.
      destruct (passes el) eqn:Hp.
      * injection Hf as <-.
        rewrite novel_accepted_keep by congruence.
        cbn [filter]. rewrite He, String.eqb_refl. f_equal.
        apply novel_accepted_seen.
        rewrite mem_app, mem_single, String.eqb_refl. apply orb_true_r.
      * rewrite novel_accepted_skip by (rewrite Hp; reflexivity).
        apply IH; assumption.
    + destruct (passes el && negb (Py.mem (ident el) seen)) eqn:Hn.
      * apply andb_prop in Hn as [Hp Hm]. apply negb_true_iff in Hm.
        rewrite novel_accepted_keep by assumption.
        cbn [filter]. rewrite He. apply IH; [|assumption].
        rewrite mem_app, mem_single, Hk. cbn.
        rewrite String.eqb_sym. exact He.
      * rewrite novel_accepted_skip by assumption. apply IH; assumption.
Qed.

Lemma keys_fold_with_row (l : list element) :
  forall t, Sqlite.keys (fold_left with_row l t) = (Sqlite.keys t ++ map ident l)%list.
Proof.
  induction l as [|el l IH]; intros t; cbn [fold_left map].
  - now rewrite app_nil_r.
  - rewrite IH, keys_with_row, <- app_assoc. reflexivity.
Qed.

(** ** The loop *)

Section Loop.

Variable fault : nat -> bool.

Lemma for_loop_cons (el : element) (rest : list element)
    (apps : list string) (c : Sqlite.connection) :
  for_loop fault (el :: rest) apps c
  = match loop_body fault el apps c with
    | (Ok a, c1) => for_loop fault rest a c1
    | (Raise e, c1) => (Raise e, c1)
    end.
Proof. reflexivity. Qed.

Lemma for_loop_app (pre post : list element) :
  forall apps c,
  for_loop fault (pre ++ post) apps c
  = match for_loop fault pre apps c with
    | (Ok a, c1) => for_loop fault post a c1
    | (Raise e, c1) => (Raise e, c1)
    end.
Proof.
  induction pre as [|el pre IH]; intros apps c.
  - reflexivity.
  - rewrite <- app_comm_cons, !for_loop_cons.
    destruct (loop_body fault el apps c) as [[a|e] c1]; [apply IH | reflexivity].
Qed.

(** A loop that returns computed [novel_accepted]. *)
Lemma for_loop_ok (batch : list element) :
  forall apps c out c',
  for_loop fault batch apps c = (Ok out, c') ->
  let acc := novel_accepted (Sqlite.keys (Sqlite.working c)) batch in
  out = (apps ++ map entry acc)%list
  /\ Sqlite.working c' = fold_left with_row acc (Sqlite.working c)
  /\ Forall (fun el => exists b, time_rule el = Ok b) batch.
Proof.
  induction batch as [|el rest IH]; intros apps c out c' H.
  - injection H as <- <-. cbn. rewrite app_nil_r. auto.
  - rewrite for_loop_cons in H.
    pose proof (loop_body_iteration fault el apps c) as Hit.
    destruct (loop_body fault el apps c) as [[a|e] c1]; [|discriminate].
    cbn [fst snd] in Hit.
    assert (Ht : exists b, time_rule el = Ok b)
      by (inversion Hit; subst; eauto).
    apply iteration_ok in Hit.
    destruct (IH _ _ _ _ H) as (Hout & Hw & Hall).
    destruct Hit as [(Hn & -> & Hw1 & _) | (Hp & Hm & -> & Hw1 & _)]; cbn zeta.
    + rewrite novel_accepted_skip by assumption.
      rewrite Hw1 in Hout, Hw. auto.
    + rewrite novel_accepted_keep by assumption.
      rewrite Hw1, keys_with_row in Hout. rewrite Hw1, keys_with_row in Hw.
      cbn [map fold_left]. rewrite <- app_assoc in Hout. auto.
Qed.

(** A loop that raises stopped at one record, after the records before
    it went through. *)
Lemma for_loop_raise (batch : list element) :
  forall apps c e c',
  for_loop fault batch apps c = (Raise e, c') ->
  exists pre el post apps1 c1,
    batch = (pre ++ el :: post)%list
    /\ for_loop fault pre apps c = (Ok apps1, c1)
    /\ loop_body fault el apps1 c1 = (Raise e, c').
Proof.
  induction batch as [|el rest IH]; intros apps c e c' H.
  - discriminate.
  - rewrite for_loop_cons in H.
    destruct (loop_body fault el apps c) as [[a|e1] c1] eqn:E.
    + destruct (IH _ _ _ _ H) as (pre & el' & post & apps1 & c2 & -> & Hpre & Hel).
      exists (el :: pre), el', post, apps1, c2. repeat split; [|exact Hel].
      rewrite for_loop_cons, E. exact Hpre.
    + injection H as <- <-.
      exists [], el, rest, apps, c. repeat split. exact E.
Qed.

Lemma for_loop_clean (batch : list element) :
  forall apps c out c',
  for_loop fault batch apps c = (Ok out, c') -> clean c -> clean c'.
Proof.
  induction batch as [|el rest IH]; intros apps c out c' H Hc.
  - injection H as <- <-. exact Hc.
  - rewrite for_loop_cons in H.
    pose proof (loop_body_iteration fault el apps c) as Hit.
    destruct (loop_body fault el apps c) as [[a|e] c1]; [|discriminate].
    eapply IH; [exact H|]. eapply iteration_ok_clean; eassumption.
Qed.

(** Whatever the loop does, the file only gains rows, each flagged
    [sent_email = 1]. *)
Lemma for_loop_rows (batch : list element) :
  forall apps c r c',
  for_loop fault batch apps c = (r, c') -> clean c ->
  exists new,
    Sqlite.rows (Sqlite.committed c') = (Sqlite.rows (Sqlite.committed c) ++ new)%list
    /\ Forall (fun x => Sqlite.sent_email x = 1) new.
Proof.
  induction batch as [|el rest IH]; intros apps c r c' H Hc.
  - injection H as <- <-. exists []. now rewrite app_nil_r.
  - rewrite for_loop_cons in H.
    pose proof (loop_body_iteration fault el apps c) as Hit.
    destruct (loop_body fault el apps c) as [[a|e] c1]; cbn [fst snd] in Hit.
    + pose proof (iteration_ok_clean _ _ _ _ _ _ Hit Hc) as Hc1.
      destruct (IH _ _ _ _ H Hc1) as (new & Hrows & Hall).
      apply iteration_ok in Hit.
      destruct Hit as [(_ & _ & _ & Hcm) | (_ & _ & _ & _ & Hcm)].
      * exists new. rewrite Hrows, Hcm. auto.
      * exists (row_of (Sqlite.last_id (Sqlite.working c) + 1) el :: new).
        rewrite Hrows, Hcm, <- Hc. unfold with_row. cbn [Sqlite.rows].
        rewrite <- app_assoc. split; [reflexivity|].
        constructor; [reflexivity | exact Hall].
    + injection H as <- <-. exists [].
      rewrite (iteration_raise_committed _ _ _ _ _ _ Hit), app_nil_r. auto.
Qed.

End Loop.

(** ** Clock readings *)

Lemma all_written_true : all_written = true.
Proof. vm_compute. reflexivity. Qed.

Lemma two_digits_hour (pad : bool) (h : Z) :
  1 <= h <= 12 -> hour_digits (two_digits pad h) h = true.
Proof.
  intros H. pose proof all_written_true as T. unfold all_written in T.
  rewrite forallb_forall in T.
  assert (Hp : In pad [true; false]) by (destruct pad; cbn; auto).
  apply T in Hp. apply andb_prop in Hp as [Hh _].
  rewrite forallb_forall in Hh. specialize (Hh (Z.to_nat h)).
  rewrite Z2Nat.id in Hh by lia. apply Hh. apply in_seq. lia.
Qed.

Lemma two_digits_minute (pad : bool) (m : Z) :
  0 <= m <= 59 -> minute_digits (two_digits pad m) m = true.
Proof.
  intros H. pose proof all_written_true as T. unfold all_written in T.
  rewrite forallb_forall in T.
  assert (Hp : In pad [true; false]) by (destruct pad; cbn; auto).
  apply T in Hp. apply andb_prop in Hp as [_ Hm].
  rewrite forallb_forall in Hm. specialize (Hm (Z.to_nat m)).
  rewrite Z2Nat.id in Hm by lia. apply Hm. apply in_seq. lia.
Qed.

Lemma in_range_code (lo hi : Z) (c : ascii) :
  Py.in_range lo hi c = true -> lo <= Py.code c <= hi.
Proof. unfold Py.in_range. rewrite andb_true_iff, !Z.leb_le. tauto. Qed.

Lemma in_range_outside (lo hi : Z) (c : ascii) :
  Py.code c < lo \/ hi < Py.code c -> Py.in_range lo hi c = false.
Proof.
  intros H. unfold Py.in_range. apply andb_false_iff.
  destruct H; [left | right]; apply Z.leb_gt; assumption.
Qed.

Lemma not_digit_code (w : ascii) :
  Py.is_digit w = false -> Py.code w < 48 \/ 57 < Py.code w.
Proof.
  unfold Py.is_digit, Py.in_range. rewrite andb_false_iff, !Z.leb_gt. tauto.
Qed.

Lemma is_space_not_digit (w : ascii) :
  Py.is_space w = true -> Py.is_digit w = false.
Proof.
  unfold Py.is_space, Py.int_space. intros H.
  apply in_range_outside.
  repeat match type of H with
    | (_ || _) = true => apply orb_prop in H as [H|H]
    end;
    repeat match type of H with
      | (_ && _) = true => apply andb_prop in H as [? H]
      end;
    repeat match goal with
      | E : (_ <=? _) = true |- _ => apply Z.leb_le in E
      | E : (_ =? _) = true |- _ => apply Z.eqb_eq in E
      end; lia.
Qed.

(** [%I] reads the written hour when something other than a digit
    follows. *)
Lemma directive_I_digits (s : string) (h : Z) (w : ascii) (rest : string) :
  hour_digits s h = true -> Py.is_digit w = false ->
  Datetime.directive_I (s ++ String w rest) = Some (h, String w rest).
Proof.
  intros Hs Hw. apply not_digit_code in Hw.
  destruct s as [|c [|c' [|c'' s']]]; try discriminate; cbn [append];
    unfold hour_digits in Hs; unfold Datetime.directive_I.
  - apply andb_prop in Hs as [Hc Hv]. apply Z.eqb_eq in Hv.
    rewrite !(in_range_outside _ _ w) by lia.
    rewrite !andb_false_r, Hc, Hv. reflexivity.
  - apply orb_prop in Hs as [Hs|Hs];
      apply andb_prop in Hs as [Hs Hv]; apply andb_prop in Hs as [Hc Hc'];
      apply Z.eqb_eq in Hv.
    + rewrite Hc, Hc', Hv. reflexivity.
    + apply Ascii.eqb_eq in Hc. subst c.
      rewrite Hc', Hv. reflexivity.
Qed.

(** [%M] reads the written minute when something other than a digit
    follows. *)
Lemma directive_M_digits (s : string) (m : Z) (w : ascii) (rest : string) :
  minute_digits s m = true -> Py.is_digit w = false ->
  Datetime.directive_M (s ++ String w rest) = Some (m, String w rest).
Proof.
  intros Hs Hw.
  destruct s as [|c [|c' [|c'' s']]]; try discriminate; cbn [append];
    unfold minute_digits in Hs; unfold Datetime.directive_M.
  - apply andb_prop in Hs as [Hc Hv]. apply Z.eqb_eq in Hv.
    rewrite Hc, Hw, andb_false_r, Hv. reflexivity.
  - apply andb_prop in Hs as [Hs Hv]. apply andb_prop in Hs as [Hc Hc'].
    apply Z.eqb_eq in Hv.
    assert (Hd : Py.is_digit c = true).
    { apply in_range_code in Hc. unfold Py.is_digit, Py.in_range.
      apply andb_true_iff. rewrite !Z.leb_le. lia. }
    rewrite Hd, Hc, Hc', Hv. reflexivity.
Qed.

Lemma drop_while_gap (p : ascii -> bool) (g : string) (a : ascii) (r : string) :
  Py.all_chars p g = true -> p a = false ->
  Py.drop_while p (g ++ String a r) = String a r.
Proof.
  intros Hg Ha. induction g as [|c g IH]; cbn [append Py.drop_while].
  - now rewrite Ha.
  - cbn [Py.all_chars] in Hg. apply andb_prop in Hg as [Hc Hg].
    rewrite Hc. apply IH, Hg.
Qed.

Lemma directive_p_meridiem (sp : spelling) (pm : bool) :
  Datetime.directive_p (meridiem sp pm) = Some (pm, "")
  /\ exists a r, meridiem sp pm = String a r /\ Py.is_space a = false.
Proof.
  unfold meridiem.
  destruct pm, (upper_first sp), (upper_second sp);
    (split; [reflexivity | eexists; eexists; split; reflexivity]).
Qed.

(** A well-formed reading, however it is spelled, is read back as its
    hour and minute on the default date. *)
Lemma strptime_write12 (sp : spelling) (t : time12) :
  well_formed12 t -> well_spelled sp ->
  Datetime.strptime (write12 sp t)
  = Ok (Datetime.mk_datetime 1900 1 1
          (Datetime.hour24 (hour12 t) (pm12 t)) (minute12 t) 0 0).
Proof.
  intros [Hh Hm] [Hne Hsp]. unfold write12, Datetime.strptime.
  destruct (gap sp) as [|w g] eqn:Hg; [contradiction|].
  cbn [Py.all_chars] in Hsp. apply andb_prop in Hsp as [Hw Hg'].
  destruct (directive_p_meridiem sp (pm12 t)) as (Hp & a & r & Ha & Hsa).
  cbn [append].
  rewrite (directive_I_digits _ (hour12 t)) by
    (try reflexivity; apply two_digits_hour; assumption).
  rewrite Ascii.eqb_refl.
  rewrite (directive_M_digits _ (minute12 t)) by
    (try (apply is_space_not_digit; assumption);
     apply two_digits_minute; assumption).
  rewrite Hw, Ha, (drop_while_gap _ _ _ _ Hg' Hsa), <- Ha, Hp.
  reflexivity.
Qed.

Lemma ge_same_day (h1 m1 h2 m2 : Z) :
  0 <= m1 < 60 -> 0 <= m2 < 60 ->
  Datetime.ge (Datetime.mk_datetime 1900 1 1 h1 m1 0 0)
              (Datetime.mk_datetime 1900 1 1 h2 m2 0 0)
  = (60 * h2 + m2 <=? 60 * h1 + m1).
Proof.
  intros H1 H2. unfold Datetime.ge, Datetime.fields.
  remember (60 * h2 + m2 <=? 60 * h1 + m1) as rhs eqn:R.
  cbn. subst rhs.
  destruct (Z.eqb_spec h1 h2); [destruct (Z.eqb_spec m1 m2)|];
    symmetry.
  - apply Z.leb_le. lia.
  - destruct (Z.ltb_spec m2 m1); [apply Z.leb_le | apply Z.leb_gt]; lia.
  - destruct (Z.ltb_spec h2 h1); [apply Z.leb_le | apply Z.leb_gt]; lia.
Qed.

Lemma hour24_mod (h : Z) (p : bool) :
  1 <= h <= 12 ->
  Datetime.hour24 h p = h mod 12 + (if p then 12 else 0).
Proof.
  intros H. unfold Datetime.hour24.
  destruct (Z.eqb_spec h 12) as [->|Hn].
  - destruct p; reflexivity.
  - rewrite Z.mod_small by lia. destruct p; lia.
Qed.

Lemma digit_value_range (c : ascii) :
  Py.is_digit c = true -> 0 <= Py.digit_value c <= 9.
Proof.
  intros H. apply in_range_code in H. unfold Py.digit_value. lia.
Qed.

Lemma some_pair_fst {A B : Type} (a a' : A) (b b' : B) :
  Some (a, b) = Some (a', b') -> a' = a.
Proof. congruence. Qed.

Lemma directive_I_range (s r : string) (h : Z) :
  Datetime.directive_I s = Some (h, r) -> 1 <= h <= 12.
Proof.
  unfold Datetime.directive_I, Py.digit_value.
  destruct s as [|c [|c' s']]; [discriminate| |].
  - destruct (Py.in_range 49 57 c) eqn:E; [|discriminate].
    apply in_range_code in E. intros H. apply some_pair_fst in H. lia.
  - destruct (Ascii.eqb c "1" && Py.in_range 48 50 c') eqn:E1.
    { apply andb_prop in E1 as [_ E1]. apply in_range_code in E1.
      intros H. apply some_pair_fst in H. lia. }
    destruct (Ascii.eqb c "0" && Py.in_range 49 57 c') eqn:E2.
    { apply andb_prop in E2 as [_ E2]. apply in_range_code in E2.
      intros H. apply some_pair_fst in H. lia. }
    destruct (Py.in_range 49 57 c) eqn:E; [|discriminate].
    apply in_range_code in E. intros H. apply some_pair_fst in H. lia.
Qed.

Lemma directive_M_range (s r : string) (m : Z) :
  Datetime.directive_M s = Some (m, r) -> 0 <= m <= 59.
Proof.
  unfold Datetime.directive_M.
  destruct s as [|c s']; [discriminate|].
  destruct (Py.is_digit c) eqn:Hc; [|discriminate].
  pose proof (digit_value_range c Hc) as Rc.
  destruct s' as [|c' s''].
  - intros H. apply some_pair_fst in H. lia.
  - destruct (Py.in_range 48 53 c && Py.is_digit c') eqn:E;
      intros H; apply some_pair_fst in H; [|lia].
    apply andb_prop in E as [E1 E2]. apply in_range_code in E1.
    pose proof (digit_value_range c' E2). unfold Py.digit_value in *. lia.
Qed.

(** A string that [strptime] accepts is read on the default date, with an
    hour below 24 and a minute below 60. *)
Lemma strptime_fields (t : string) (d : Datetime.datetime) :
  Datetime.strptime t = Ok d ->
  exists h m, d = Datetime.mk_datetime 1900 1 1 h m 0 0
              /\ 0 <= h < 24 /\ 0 <= m < 60.
Proof.
  unfold Datetime.strptime.
  destruct (Datetime.directive_I t) as [[h r]|] eqn:HI; [|discriminate].
  apply directive_I_range in HI.
  destruct r as [|c r1]; [discriminate|].
  destruct (Ascii.eqb c ":"); [|discriminate].
  destruct (Datetime.directive_M r1) as [[m r2]|] eqn:HM; [|discriminate].
  apply directive_M_range in HM.
  destruct r2 as [|w r3]; [discriminate|].
  destruct (Py.is_space w); [|discriminate].
  destruct (Datetime.directive_p _) as [[p [|? ?]]|]; try discriminate.
  intros H. injection H as <-. exists (Datetime.hour24 h p), m.
  repeat split; try lia; unfold Datetime.hour24;
    destruct p; destruct (Z.eqb_spec h 12); lia.
Qed.

(** On strings, the comparison is the comparison of the minutes since
    midnight that [strptime] reads: the date plays no part. *)
Lemma is_time_greater_or_equal_time_of_day (time1 time2 : string)
    (d1 d2 : Datetime.datetime) :
  Datetime.strptime time1 = Ok d1 ->
  Datetime.strptime time2 = Ok d2 ->
  is_time_greater_or_equal time1 time2
  = Ok (Datetime.time_of_day d2 <=? Datetime.time_of_day d1).
Proof.
  intros H1 H2. unfold is_time_greater_or_equal. rewrite H1, H2. f_equal.
  apply strptime_fields in H1 as (h1 & m1 & -> & _ & M1).
  apply strptime_fields in H2 as (h2 & m2 & -> & _ & M2).
  apply ge_same_day; assumption.
Qed.

(** ** The claims about the time helpers *)

(** C3. [convert_24hr_to_12hr] maps "0000" to 12:00 AM, "1200" to
    12:00 PM, "1530" to 3:30 PM and "0930" to 9:30 AM.  Whatever the
    minutes, hour 00 is written 12 with AM and hour 12 is written 12
    with PM; the 12-hour value is never 0 or negative, for any hour at
    all, and lies between 1 and 12 for the hours 0 to 23. *)
Theorem convert_24hr_to_12hr_boundaries :
  convert_24hr_to_12hr (Some "0000") = Ok "12:00 AM"
  /\ convert_24hr_to_12hr (Some "1200") = Ok "12:00 PM"
  /\ convert_24hr_to_12hr (Some "1530") = Ok "3:30 PM"
  /\ convert_24hr_to_12hr (Some "0930") = Ok "9:30 AM"
  /\ (forall minutes : string,
        convert_24hr_to_12hr (Some ("00" ++ minutes))
        = Ok ("12:" ++ minutes ++ " AM"))
  /\ (forall minutes : string,
        convert_24hr_to_12hr (Some ("12" ++ minutes))
        = Ok ("12:" ++ minutes ++ " PM"))
  /\ hours_12 0 = 12 /\ period_of 0 = "AM"
  /\ hours_12 12 = 12 /\ period_of 12 = "PM"
  /\ (forall hours : Z, 1 <= hours_12 hours)
  /\ forallb (fun hours => (1 <=? hours_12 hours) && (hours_12 hours <=? 12))
       (map Z.of_nat (seq 0 24)) = true.
Proof.
  repeat split; try reflexivity.
  intros hours. unfold hours_12.
  destruct (Z.leb_spec 1 hours); destruct (Z.leb_spec hours 12);
    destruct (Z.ltb_spec 12 hours); cbn; lia.
Qed.

(** C4. For two well-formed 12-hour readings, however each is spelled
    (leading zeros or not, any white space before the meridiem, either
    case), [is_time_greater_or_equal] returns, and returns true exactly
    when the first is at or after the second in minutes since midnight;
    two equal readings give true. *)
Theorem is_time_greater_or_equal_correct
    (t1 t2 : time12) (sp1 sp2 : spelling) :
  well_formed12 t1 -> well_formed12 t2 ->
  well_spelled sp1 -> well_spelled sp2 ->
  is_time_greater_or_equal (write12 sp1 t1) (write12 sp2 t2)
  = Ok (minutes_since_midnight t2 <=? minutes_since_midnight t1)
  /\ (t1 = t2 ->
      is_time_greater_or_equal (write12 sp1 t1) (write12 sp2 t2) = Ok true).
Proof.
  intros W1 W2 S1 S2.
  assert (E : is_time_greater_or_equal (write12 sp1 t1) (write12 sp2 t2)
              = Ok (minutes_since_midnight t2 <=? minutes_since_midnight t1)).
  { unfold is_time_greater_or_equal.
    rewrite (strptime_write12 _ _ W1 S1), (strptime_write12 _ _ W2 S2).
    destruct W1 as [Hh1 Hm1], W2 as [Hh2 Hm2].
    rewrite ge_same_day by lia.
    unfold minutes_since_midnight.
    rewrite <- !hour24_mod by assumption. reflexivity. }
  split; [exact E|].
  intros ->. rewrite E. f_equal. apply Z.leb_refl.
Qed.

Lemma is_time_greater_or_equal_correct_witness :
  is_time_greater_or_equal "4:00 PM" "04:30 PM" = Ok false
  /\ is_time_greater_or_equal "12:05 AM" "12:5  am" = Ok true.
Proof.
  split.
  - apply (is_time_greater_or_equal_correct
             (mk_time12 4 0 true) (mk_time12 4 30 true) unpadded_hour padded);
      unfold well_formed12, well_spelled; cbn;
      first [lia | split; [discriminate | reflexivity]].
  - apply (is_time_greater_or_equal_correct
             (mk_time12 12 5 false) (mk_time12 12 5 false)
             padded (mk_spelling true false "  " false false));
      [unfold well_formed12; cbn; lia ..
      | split; [discriminate | reflexivity]
      | split; [discriminate | reflexivity]
      | reflexivity].
Defined.

(** Which malformed time strings raise.  A non-numeric hour fails in
    [int]; an hour above 24 or a minute above 59 fails in [strptime]; a
    negative hour does not fail: it takes the last branch of the hour
    expression and is written as 12 AM. *)
Example malformed_time_strings :
  convert_24hr_to_12hr (Some "ab30") = Raise ValueError
  /\ convert_24hr_to_12hr (Some "") = Raise ValueError
  /\ convert_24hr_to_12hr None = Raise TypeError
  /\ convert_24hr_to_12hr (Some "9930") = Ok "87:30 PM"
  /\ is_time_greater_or_equal "87:30 PM" WEEKDAY_START_TIME = Raise ValueError
  /\ convert_24hr_to_12hr (Some "0960") = Ok "9:60 AM"
  /\ is_time_greater_or_equal "9:60 AM" WEEKEND_START_TIME = Raise ValueError
  /\ convert_24hr_to_12hr (Some "-530") = Ok "12:30 AM"
  /\ is_time_greater_or_equal "12:30 AM" WEEKEND_START_TIME = Ok false.
Proof. repeat split; vm_compute; reflexivity. Qed.

(** ** The claims about the filter loop *)

Lemma mem_In (x : string) (l : list string) : Py.mem x l = true <-> In x l.
Proof.
  unfold Py.mem. rewrite existsb_exists. split.
  - intros (y & Hy & E). apply String.eqb_eq in E. now subst.
  - intros H. exists x. split; [exact H | apply String.eqb_refl].
Qed.

(** Every record that passes the time rule is seen once the batch is
    through. *)
Lemma novel_accepted_covers (batch : list element) :
  forall seen el, In el batch -> passes el = true ->
  In (ident el) (seen ++ map ident (novel_accepted seen batch)).
Proof.
  induction batch as [|el0 rest IH]; intros seen el Hin Hp; [contradiction|].
  destruct (passes el0 && negb (Py.mem (ident el0) seen)) eqn:Hn.
  - apply andb_prop in Hn as [Hp0 Hm0]. apply negb_true_iff in Hm0.
    rewrite novel_accepted_keep by assumption. cbn [map].
    destruct Hin as [<-|Hin].
    + apply in_or_app. right. left. reflexivity.
    + specialize (IH (seen ++ [ident el0])%list el Hin Hp).
      rewrite <- app_assoc in IH. exact IH.
  - rewrite novel_accepted_skip by assumption.
    destruct Hin as [<-|Hin]; [|apply IH; assumption].
    rewrite Hp in Hn. cbn in Hn. apply negb_false_iff, mem_In in Hn.
    apply in_or_app. left. exact Hn.
Qed.

(** A batch whose passing records are all seen goes through without a
    change, as long as the database answers. *)
Lemma for_loop_all_seen (fault : nat -> bool) (t : Sqlite.table)
    (batch : list element) :
  Forall (fun el => exists b, time_rule el = Ok b) batch ->
  (forall el, In el batch -> passes el = true ->
              Py.mem (ident el) (Sqlite.keys t) = true) ->
  forall apps c,
  Sqlite.working c = t ->
  (forall k, (Sqlite.calls c <= k)%nat -> fault k = false) ->
  exists c',
    for_loop fault batch apps c = (Ok apps, c')
    /\ Sqlite.working c' = t
    /\ Sqlite.committed c' = Sqlite.committed c.
Proof.
  induction batch as [|el rest IH]; intros Hall Hseen apps c Hw Hf.
  - exists c. auto.
  - inversion Hall as [|? ? [b Hb] Hall']; subst.
    rewrite for_loop_cons.
    assert (Hrest : forall el', In el' rest -> passes el' = true ->
                    Py.mem (ident el') (Sqlite.keys (Sqlite.working c)) = true)
      by (intros; apply Hseen; [right|]; assumption).
    destruct b.
    + rewrite loop_body_seen; try assumption.
      * destruct (IH Hall' Hrest apps (served c) eq_refl) as (c' & E & W & C).
        { intros k Hk. apply Hf. cbn in Hk. lia. }
        exists c'. auto.
      * apply Hf. lia.
      * apply Hseen; [left; reflexivity|]. unfold passes. now rewrite Hb.
    + rewrite loop_body_reject by assumption.
      apply IH; auto.
Qed.

(** C5. When a call of the loop returns a list (empty or not), a second
    call on the same batch, against a connection that sees the table the
    first call left and whose calls are answered, returns the empty list
    and leaves the table as it is. *)
Theorem second_pass_is_empty
    (fault1 fault2 : nat -> bool) (batch : list element)
    (c c' c2 : Sqlite.connection) (out : list string) :
  for_loop fault1 batch [] c = (Ok out, c') ->
  Sqlite.working c2 = Sqlite.working c' ->
  (forall k, (Sqlite.calls c2 <= k)%nat -> fault2 k = false) ->
  exists c2',
    for_loop fault2 batch [] c2 = (Ok [], c2')
    /\ Sqlite.working c2' = Sqlite.working c'
    /\ Sqlite.committed c2' = Sqlite.committed c2.
Proof.
  intros H1 Hw Hf.
  destruct (for_loop_ok fault1 batch _ _ _ _ H1) as (_ & Hw' & Hall).
  apply for_loop_all_seen; try assumption.
  intros el Hin Hp. apply mem_In.
  rewrite Hw', keys_fold_with_row.
  apply novel_accepted_covers; assumption.
Qed.

Lemma second_pass_is_empty_witness :
  exists out c',
    for_loop Sample.no_fault [Sample.slot_C; Sample.slot_good] []
      Sample.fresh_connection = (Ok out, c')
    /\ out <> []
    /\ exists c2',
         for_loop Sample.no_fault [Sample.slot_C; Sample.slot_good] [] c'
         = (Ok [], c2')
         /\ Sqlite.working c2' = Sqlite.working c'
         /\ Sqlite.committed c2' = Sqlite.committed c'.
Proof.
  eexists. eexists. split; [vm_compute; reflexivity|].
  split; [discriminate|].
  eapply (second_pass_is_empty Sample.no_fault Sample.no_fault
            [Sample.slot_C; Sample.slot_good] Sample.fresh_connection).
  - vm_compute. reflexivity.
  - reflexivity.
  - reflexivity.
Defined.

Lemma for_loop_returns_novel_accepted
    (fault : nat -> bool) (batch : list element)
    (c c' : Sqlite.connection) (out : list string) :
  for_loop fault batch [] c = (Ok out, c') ->
  out = map entry (novel_accepted (Sqlite.keys (Sqlite.working c)) batch)
  /\ subseq (novel_accepted (Sqlite.keys (Sqlite.working c)) batch) batch.
Proof.
  intros H. destruct (for_loop_ok fault batch _ _ _ _ H) as (Hout & _ & _).
  split; [exact Hout | apply novel_accepted_subseq].
Qed.

(** C7. The list a call of the loop returns is the list of lines of a
    subsequence of the batch: the accepted and novel records, in the order
    of the input. *)
Theorem accepted_in_input_order
    (fault : nat -> bool) (batch : list element)
    (c c' : Sqlite.connection) (out : list string) :
  for_loop fault batch [] c = (Ok out, c') ->
  let acc := novel_accepted (Sqlite.keys (Sqlite.working c)) batch in
  out = map entry acc /\ subseq acc batch.
Proof. apply for_loop_returns_novel_accepted. Qed.

Lemma accepted_in_input_order_witness :
  let batch := [Sample.slot_good; Sample.slot_B; Sample.slot_C] in
  let acc := novel_accepted [] batch in
  acc = [Sample.slot_good; Sample.slot_C]
  /\ [entry Sample.slot_good; entry Sample.slot_C] = map entry acc
  /\ subseq acc batch.
Proof.
  split; [vm_compute; reflexivity|].
  apply (accepted_in_input_order Sample.no_fault
           [Sample.slot_good; Sample.slot_B; Sample.slot_C]
           Sample.fresh_connection
           (snd (for_loop Sample.no_fault
                   [Sample.slot_good; Sample.slot_B; Sample.slot_C] []
                   Sample.fresh_connection))).
  vm_compute. reflexivity.
Defined.

(** C6, as amended.  When a call of the loop returns and some record of
    the batch with identifier [key] passes the time rule, [key] not being
    in the table when the call starts, then exactly one accepted record
    bears [key], and it is the first record of the batch that bears [key]
    and passes the time rule; later ones are dropped. *)
Theorem duplicate_in_batch_first_wins
    (fault : nat -> bool) (batch : list element)
    (c c' : Sqlite.connection) (out : list string)
    (key : string) (first : element) :
  for_loop fault batch [] c = (Ok out, c') ->
  Py.mem key (Sqlite.keys (Sqlite.working c)) = false ->
  find (fun el => String.eqb (ident el) key && passes el) batch = Some first ->
  let acc := novel_accepted (Sqlite.keys (Sqlite.working c)) batch in
  out = map entry acc
  /\ subseq acc batch
  /\ filter (fun el => String.eqb (ident el) key) acc = [first].
Proof.
  intros H Hk Hf.
  destruct (for_loop_returns_novel_accepted fault batch c c' out H) as [Hout Hsub].
  repeat split; try assumption.
  apply novel_accepted_first; assumption.
Qed.

Lemma duplicate_in_batch_first_wins_witness :
  let batch := [Sample.slot_B; Sample.slot_good; Sample.slot_good_again] in
  let acc := novel_accepted [] batch in
  [entry Sample.slot_good] = map entry acc
  /\ subseq acc batch
  /\ filter (fun el => String.eqb (ident el) "Mon, G") acc = [Sample.slot_good].
Proof.
  apply (duplicate_in_batch_first_wins Sample.no_fault
           [Sample.slot_B; Sample.slot_good; Sample.slot_good_again]
           Sample.fresh_connection
           (snd (for_loop Sample.no_fault
                   [Sample.slot_B; Sample.slot_good; Sample.slot_good_again] []
                   Sample.fresh_connection))
           [entry Sample.slot_good] "Mon, G" Sample.slot_good).
  - vm_compute. reflexivity.
  - reflexivity.
  - vm_compute. reflexivity.
Defined.

(** C6 as stated fails when the identifier is already in the table: two
    records with the same identifier both pass the time rule and none is
    accepted. *)
Lemma duplicate_in_batch_counterexample :
  ident Sample.slot_good = ident Sample.slot_good_again
  /\ passes Sample.slot_good = true
  /\ passes Sample.slot_good_again = true
  /\ fst (for_loop Sample.no_fault
            [Sample.slot_good; Sample.slot_good_again] []
            Sample.seen_connection) = Ok [].
Proof. repeat split; vm_compute; reflexivity. Qed.

(** ** The end-to-end scenario *)

Lemma time_rule_monday_1600 (a : string) (e i : Py.attr) (e' : string) :
  Py.strip (Py.split_comma_first a) = "Mon" ->
  convert_24hr_to_12hr e = Ok e' ->
  time_rule (mk_element (Some a) (Some "1600") e i) = Ok false.
Proof.
  intros Hd He. unfold time_rule.
  cbn [data_starttime data_endtime data_appointmentdatelongstring].
  change (convert_24hr_to_12hr (Some "1600")) with (Ok "4:00 PM").
  rewrite He, Hd. vm_compute. reflexivity.
Qed.

Lemma time_rule_saturday_0800 (a : string) (e i : Py.attr) (e' : string) :
  Py.strip (Py.split_comma_first a) = "Sat" ->
  convert_24hr_to_12hr e = Ok e' ->
  time_rule (mk_element (Some a) (Some "0800") e i) = Ok false.
Proof.
  intros Hd He. unfold time_rule.
  cbn [data_starttime data_endtime data_appointmentdatelongstring].
  change (convert_24hr_to_12hr (Some "0800")) with (Ok "8:00 AM").
  rewrite He, Hd. vm_compute. reflexivity.
Qed.

Lemma time_rule_sunday_1000 (a : string) (e i : Py.attr) (e' : string) :
  Py.strip (Py.split_comma_first a) = "Sun" ->
  convert_24hr_to_12hr e = Ok e' ->
  time_rule (mk_element (Some a) (Some "1000") e i) = Ok true.
Proof.
  intros Hd He. unfold time_rule.
  cbn [data_starttime data_endtime data_appointmentdatelongstring].
  change (convert_24hr_to_12hr (Some "1000")) with (Ok "10:00 AM").
  rewrite He, Hd. vm_compute. reflexivity.
Qed.

(** C1, as amended.  With the limits 04:30 PM and 09:00 AM and an empty
    table, the batch of a Monday record starting at 1600, a Saturday
    record starting at 0800 and a Sunday record starting at 1000 yields
    exactly the Sunday record: the Monday start 4:00 PM is before 4:30 PM
    and the Saturday start 8:00 AM is before 9:00 AM. *)
Theorem end_to_end_scenario
    (a b c : string) (ea eb ec ia ib ic : Py.attr) (ea' eb' ec' : string)
    (conn : Sqlite.connection) :
  Py.strip (Py.split_comma_first a) = "Mon" ->
  Py.strip (Py.split_comma_first b) = "Sat" ->
  Py.strip (Py.split_comma_first c) = "Sun" ->
  convert_24hr_to_12hr ea = Ok ea' ->
  convert_24hr_to_12hr eb = Ok eb' ->
  convert_24hr_to_12hr ec = Ok ec' ->
  Sqlite.working conn = Sqlite.empty ->
  let slot_a := mk_element (Some a) (Some "1600") ea ia in
  let slot_b := mk_element (Some b) (Some "0800") eb ib in
  let slot_c := mk_element (Some c) (Some "1000") ec ic in
  exists conn',
    for_loop Sample.no_fault [slot_a; slot_b; slot_c] [] conn
    = (Ok [entry slot_c], conn')
    /\ Sqlite.keys (Sqlite.committed conn') = [c].
Proof.
  intros Ha Hb Hc Hea Heb Hec Hw slot_a slot_b slot_c.
  rewrite for_loop_cons, loop_body_reject
    by (eapply time_rule_monday_1600; eassumption).
  rewrite for_loop_cons, loop_body_reject
    by (eapply time_rule_saturday_0800; eassumption).
  rewrite for_loop_cons, loop_body_new;
    try reflexivity;
    try (eapply time_rule_sunday_1000; eassumption);
    try (rewrite Hw; reflexivity).
  eexists. split; [reflexivity|].
  cbn [Sqlite.committed]. rewrite keys_with_row, Hw. reflexivity.
Qed.

Lemma end_to_end_scenario_witness :
  exists conn',
    for_loop Sample.no_fault
      [Sample.slot_A; Sample.slot_B; Sample.slot_C] []
      Sample.fresh_connection
    = (Ok [entry Sample.slot_C], conn')
    /\ Sqlite.keys (Sqlite.committed conn') = ["Sun, C"].
Proof.
  apply (end_to_end_scenario "Mon, A" "Sat, B" "Sun, C"
           (Some "1700") (Some "0900") (Some "1100")
           (Some "Pat") (Some "Pat") (Some "Lee")
           "5:00 PM" "9:00 AM" "11:00 AM" Sample.fresh_connection);
    reflexivity.
Defined.

(** C1 as stated fails: the scenario accepts the Sunday record only.  The
    Monday record is rejected by the time rule, is not mailed and is not
    recorded. *)
Lemma end_to_end_counterexample :
  let batch := [Sample.slot_A; Sample.slot_B; Sample.slot_C] in
  let cycle := run_scraper Sample.no_fault smtp_accepts (Ok batch)
                 Sample.fresh_world in
  fst (for_loop Sample.no_fault batch [] Sample.fresh_connection)
  = Ok [entry Sample.slot_C]
  /\ [entry Sample.slot_C] <> [entry Sample.slot_A; entry Sample.slot_C]
  /\ time_rule Sample.slot_A = Ok false
  /\ is_time_greater_or_equal "4:00 PM" WEEKDAY_START_TIME = Ok false
  /\ Sqlite.keys (disk (snd cycle)) = ["Sun, C"].
Proof.
  repeat split; try (vm_compute; reflexivity). discriminate.
Qed.

(** ** When the time handling raises *)

Lemma int_raises_ValueError (s : string) (e : exn) :
  Py.int s = Raise e -> e = ValueError.
Proof.
  unfold Py.int.
  destruct (match Py.drop_while Py.int_space s with
            | String "-" r => option_map Z.opp (Py.int_digits 0 false r)
            | String "+" r => Py.int_digits 0 false r
            | _ => Py.int_digits 0 false (Py.drop_while Py.int_space s)
            end); congruence.
Qed.

Lemma strptime_raises_ValueError (t : string) (e : exn) :
  Datetime.strptime t = Raise e -> e = ValueError.
Proof.
  unfold Datetime.strptime.
  repeat match goal with
    | |- context [match ?x with _ => _ end] => destruct x
    end; congruence.
Qed.

Lemma convert_raises (a : Py.attr) (e : exn) :
  convert_24hr_to_12hr a = Raise e <->
  (a = None /\ e = TypeError)
  \/ (exists t, a = Some t /\ Py.int (Py.slice_to 2 t) = Raise ValueError
                /\ e = ValueError).
Proof.
  unfold convert_24hr_to_12hr. destruct a as [t|].
  - destruct (Py.int (Py.slice_to 2 t)) as [h|x] eqn:Hi.
    + split; [discriminate|]. intros [[H _]|(t' & H & Hx & _)]; [discriminate|].
      injection H as <-. congruence.
    + pose proof (int_raises_ValueError _ _ Hi) as ->. split.
      * intros H. injection H as <-. right. eauto.
      * intros [[H _]|(t' & _ & _ & ->)]; [discriminate | reflexivity].
  - split.
    + intros H. injection H as <-. auto.
    + intros [[_ ->]|(t' & H & _)]; [reflexivity | discriminate].
Qed.

Lemma limit_is_read (a : string) :
  exists d,
    Datetime.strptime
      (if Py.mem (Py.strip (Py.split_comma_first a)) ["Sat"; "Sun"]
       then WEEKEND_START_TIME else WEEKDAY_START_TIME) = Ok d.
Proof. destruct (Py.mem _ _); eexists; reflexivity. Qed.

(** The time handling of a record raises exactly for the causes of
    [raises_at]. *)
Lemma time_rule_raises_iff (el : element) (e : exn) :
  time_rule el = Raise e <-> raises_at el e.
Proof.
  split.
  - unfold time_rule.
    destruct (convert_24hr_to_12hr (data_starttime el)) as [s|x] eqn:Hs.
    2:{ intros H. injection H as <-.
        apply convert_raises in Hs as [[Hn ->]|(t & Ht & Hi & ->)].
        - now apply start_time_missing.
        - now apply (start_hour_not_an_int el t). }
    destruct (convert_24hr_to_12hr (data_endtime el)) as [s'|x] eqn:He.
    2:{ intros H. injection H as <-.
        apply convert_raises in He as [[Hn ->]|(t & Ht & Hi & ->)].
        - now apply (end_time_missing el s).
        - now apply (end_hour_not_an_int el s t). }
    destruct (data_appointmentdatelongstring el) as [a|] eqn:Ha.
    2:{ intros H. injection H as <-. now apply (identifier_missing el s s'). }
    unfold is_time_greater_or_equal.
    destruct (Datetime.strptime s) as [d|x] eqn:Hp.
    + destruct (limit_is_read a) as [d' ->]. discriminate.
    + intros H. injection H as <-.
      pose proof (strptime_raises_ValueError _ _ Hp) as ->.
      now apply (start_time_not_a_reading el s s' a).
  - intros H. unfold time_rule.
    destruct H as [Hs | t Hs Hi | s Hs He | s t Hs He Hi | s s' Hs He Ha
                  | s s' a Hs He Ha Hp].
    + rewrite Hs. reflexivity.
    + rewrite Hs. unfold convert_24hr_to_12hr. rewrite Hi. reflexivity.
    + rewrite Hs, He. reflexivity.
    + rewrite Hs, He. unfold convert_24hr_to_12hr. rewrite Hi. reflexivity.
    + rewrite Hs, He, Ha. reflexivity.
    + rewrite Hs, He, Ha. unfold is_time_greater_or_equal. rewrite Hp.
      reflexivity.
Qed.

Lemma raises_at_classes (el : element) (e : exn) :
  raises_at el e -> e = ValueError \/ e = TypeError \/ e = AttributeError.
Proof. intros H. destruct H; auto. Qed.

(** ** The cycle *)

Section Cycle.

Variable fault : nat -> bool.
Variable smtp : smtp_behaviour.

Lemma initialize_database_ok (d : Sqlite.table) (c0 : Sqlite.connection) :
  initialize_database fault d = Ok c0 ->
  Sqlite.working c0 = d /\ Sqlite.committed c0 = d.
Proof.
  unfold initialize_database, Sqlite.connect, bind,
    Sqlite.create_table_if_not_exists, Sqlite.commit, Sqlite.call.
  destruct (fault 0); [discriminate|].
  cbn [Sqlite.calls Sqlite.working Sqlite.committed].
  destruct (fault 1); [discriminate|].
  cbn [Sqlite.calls Sqlite.working Sqlite.committed].
  destruct (fault 2); [discriminate|].
  intros H. injection H as <-. auto.
Qed.

(** A loop that raises ends the cycle: nothing is mailed, the error is
    logged, the file keeps what was committed. *)
Lemma run_scraper_loop_raises (batch : list element) (w : world)
    (c0 c1 : Sqlite.connection) (e : exn) :
  initialize_database fault (disk w) = Ok c0 ->
  for_loop fault batch [] c0 = (Raise e, c1) ->
  run_scraper fault smtp (Ok batch) w
  = (Ok tt, mk_world (Sqlite.committed c1) (outbox w)
              (log w ++ [ERROR_in_scraper e; ERROR_traceback])).
Proof.
  intros Hi Hl. unfold run_scraper, try_block. rewrite Hi, Hl.
  cbn. rewrite <- app_assoc. reflexivity.
Qed.

(** The table after the records of [pre] went through. *)
Lemma for_loop_ok_committed (pre : list element) (w : world)
    (c0 c1 : Sqlite.connection) (apps : list string) :
  initialize_database fault (disk w) = Ok c0 ->
  for_loop fault pre [] c0 = (Ok apps, c1) ->
  Sqlite.committed c1
  = fold_left with_row (novel_accepted (Sqlite.keys (disk w)) pre) (disk w).
Proof.
  intros Hi Hl.
  destruct (initialize_database_ok _ _ Hi) as [Hw Hc].
  assert (Hclean : clean c0) by (unfold clean; congruence).
  rewrite (for_loop_clean fault pre _ _ _ _ Hl Hclean).
  destruct (for_loop_ok fault pre _ _ _ _ Hl) as (_ & Hw1 & _).
  rewrite Hw1, Hw. reflexivity.
Qed.

(** C2, as amended.  There is no per-record handling.  A record at
    which the time handling raises ([raises_at]: [int] on the first two
    characters of the start or of the end time or [strptime] on the
    converted start time raise [ValueError], a missing time attribute
    raises [TypeError], a missing identifier [AttributeError]) is not
    skipped: that exception ends the loop.  The records after it are not
    looked at, nothing is mailed in the cycle, the exception is logged
    by the handler of [run_scraper], and the file holds the rows of the
    records accepted before it.  The statement is about the records at
    which one of these calls raises, not about every malformed time
    string: [time_rule_raises_iff] shows that the loop raises on the
    time handling in no other case. *)
Theorem malformed_time_aborts_batch
    (pre post : list element) (el : element) (e : exn) (w : world)
    (c0 c1 : Sqlite.connection) (apps : list string) :
  initialize_database fault (disk w) = Ok c0 ->
  for_loop fault pre [] c0 = (Ok apps, c1) ->
  raises_at el e ->
  (e = ValueError \/ e = TypeError \/ e = AttributeError)
  /\ loop_body fault el apps c1 = (Raise e, c1)
  /\ for_loop fault (pre ++ el :: post)%list [] c0 = (Raise e, c1)
  /\ run_scraper fault smtp (Ok (pre ++ el :: post)%list) w
     = (Ok tt,
        mk_world
          (fold_left with_row (novel_accepted (Sqlite.keys (disk w)) pre) (disk w))
          (outbox w)
          (log w ++ [ERROR_in_scraper e; ERROR_traceback])).
Proof.
  intros Hi Hpre Hcause.
  pose proof (proj2 (time_rule_raises_iff el e) Hcause) as He.
  pose proof (loop_body_raise fault el apps c1 e He) as Hb.
  assert (Hl : for_loop fault (pre ++ el :: post)%list [] c0 = (Raise e, c1)).
  { rewrite for_loop_app, Hpre, for_loop_cons, Hb. reflexivity. }
  split; [exact (raises_at_classes el e Hcause)|].
  split; [exact Hb|]. split; [exact Hl|].
  rewrite (run_scraper_loop_raises _ _ _ _ _ Hi Hl).
  rewrite (for_loop_ok_committed _ _ _ _ _ Hi Hpre). reflexivity.
Qed.

(** C8.  When a database call raises inside the loop, the cycle returns
    with nothing mailed and the error logged, and the file holds exactly
    the rows of the records accepted before the record at which the call
    failed. *)
Theorem store_failure_aborts_cycle
    (batch : list element) (w : world) (c0 c1 : Sqlite.connection) :
  initialize_database fault (disk w) = Ok c0 ->
  for_loop fault batch [] c0 = (Raise sqlite3_Error, c1) ->
  exists pre el post,
    batch = (pre ++ el :: post)%list
    /\ run_scraper fault smtp (Ok batch) w
       = (Ok tt,
          mk_world
            (fold_left with_row (novel_accepted (Sqlite.keys (disk w)) pre) (disk w))
            (outbox w)
            (log w ++ [ERROR_in_scraper sqlite3_Error; ERROR_traceback])).
Proof.
  intros Hi Hl.
  destruct (for_loop_raise fault batch _ _ _ _ Hl)
    as (pre & el & post & apps & cpre & Hb & Hpre & Hel).
  exists pre, el, post. split; [exact Hb|].
  rewrite (run_scraper_loop_raises _ _ _ _ _ Hi Hl).
  pose proof (loop_body_iteration fault el apps cpre) as Hit.
  rewrite Hel in Hit. cbn [fst snd] in Hit.
  rewrite (iteration_raise_committed _ _ _ _ _ _ Hit).
  rewrite (for_loop_ok_committed _ _ _ _ _ Hi Hpre). reflexivity.
Qed.

(** The file after a cycle does not depend on the SMTP server. *)
Lemma run_scraper_disk_any_smtp (smtp' : smtp_behaviour)
    (page : result (list element)) (w : world) :
  fst (run_scraper fault smtp page w) = fst (run_scraper fault smtp' page w)
  /\ disk (snd (run_scraper fault smtp page w))
     = disk (snd (run_scraper fault smtp' page w)).
Proof.
  unfold run_scraper, try_block.
  destruct (initialize_database fault (disk w)) as [c0|e]; [|auto].
  destruct page as [batch|e]; [|auto].
  destruct (for_loop fault batch [] c0) as [[[|a apps]|e] c1]; auto.
  destruct (send_email smtp (a :: apps) w) as [r1 w1].
  destruct (send_email smtp' (a :: apps) w) as [r2 w2].
  auto.
Qed.

(** C9, as amended.  Every row a cycle adds to the file carries
    [sent_email = 1] from the moment it is committed, which is before
    [send_email] is called; the flag is the same whether the server
    accepts the message, refuses it, or is never contacted. *)
Theorem sent_email_set_on_insert
    (page : result (list element)) (w : world) :
  let w' := snd (run_scraper fault smtp page w) in
  (exists new,
     Sqlite.rows (disk w') = (Sqlite.rows (disk w) ++ new)%list
     /\ Forall (fun x => Sqlite.sent_email x = 1) new)
  /\ (forall smtp', disk (snd (run_scraper fault smtp' page w)) = disk w').
Proof.
  cbn zeta. split.
  2:{ intros smtp'. symmetry. apply run_scraper_disk_any_smtp. }
  unfold run_scraper.
  destruct (initialize_database fault (disk w)) as [c0|e] eqn:Hi.
  2:{ exists []. now rewrite app_nil_r. }
  destruct (initialize_database_ok _ _ Hi) as [Hw Hc].
  assert (Hclean : clean c0) by (unfold clean; congruence).
  unfold try_block.
  destruct page as [batch|e].
  2:{ cbv beta iota zeta. cbn [snd disk]. unfold Sqlite.close.
      exists []. now rewrite Hc, app_nil_r. }
  destruct (for_loop fault batch [] c0) as [r c1] eqn:Hl.
  destruct (for_loop_rows fault batch _ _ _ _ Hl Hclean) as (new & Hrows & Hall).
  rewrite Hc in Hrows.
  exists new. split; [|exact Hall].
  destruct r as [[|a apps]|e]; cbv beta iota zeta;
    cbn [snd disk logging]; unfold Sqlite.close; try exact Hrows.
  destruct (send_email smtp (a :: apps) w) as [r1 w1].
  cbv beta iota zeta. cbn [snd disk]. exact Hrows.
Qed.

End Cycle.

Lemma malformed_time_aborts_batch_witness :
  raises_at Sample.slot_bad ValueError
  /\ run_scraper Sample.no_fault smtp_accepts
       (Ok [Sample.slot_C; Sample.slot_bad; Sample.slot_good])
       Sample.fresh_world
     = (Ok tt,
        mk_world (with_row Sqlite.empty Sample.slot_C) []
          [ERROR_in_scraper ValueError; ERROR_traceback]).
Proof.
  split.
  - exact (start_hour_not_an_int Sample.slot_bad "ab30" eq_refl eq_refl).
  - exact (proj2 (proj2 (proj2
      (malformed_time_aborts_batch Sample.no_fault smtp_accepts
         [Sample.slot_C] [Sample.slot_good] Sample.slot_bad ValueError
         Sample.fresh_world Sample.fresh_connection
         (snd (for_loop Sample.no_fault [Sample.slot_C] []
                 Sample.fresh_connection))
         [entry Sample.slot_C] eq_refl eq_refl
         (start_hour_not_an_int Sample.slot_bad "ab30" eq_refl eq_refl))))).
Defined.

(** C2 as stated fails: a record with a malformed start time in front of
    a record that passes the time rule and is new ends the loop; the
    second record is neither recorded nor mailed, though alone it is. *)
Lemma malformed_time_counterexample :
  let batch := [Sample.slot_bad; Sample.slot_good] in
  time_rule Sample.slot_bad = Raise ValueError
  /\ passes Sample.slot_good = true
  /\ for_loop Sample.no_fault batch [] Sample.fresh_connection
     = (Raise ValueError, Sample.fresh_connection)
  /\ run_scraper Sample.no_fault smtp_accepts (Ok batch) Sample.fresh_world
     = (Ok tt,
        mk_world Sqlite.empty []
          [ERROR_in_scraper ValueError; ERROR_traceback])
  /\ Sqlite.keys
       (disk (snd (run_scraper Sample.no_fault smtp_accepts
                     (Ok [Sample.slot_good]) Sample.fresh_world)))
     = ["Mon, G"].
Proof. repeat split; vm_compute; reflexivity. Qed.

Lemma store_failure_aborts_cycle_witness :
  exists pre el post,
    [Sample.slot_C; Sample.slot_good] = (pre ++ el :: post)%list
    /\ run_scraper Sample.ninth_call_fails smtp_accepts
         (Ok [Sample.slot_C; Sample.slot_good]) Sample.fresh_world
       = (Ok tt,
          mk_world
            (fold_left with_row
               (novel_accepted (Sqlite.keys (disk Sample.fresh_world)) pre)
               (disk Sample.fresh_world))
            (outbox Sample.fresh_world)
            (log Sample.fresh_world
               ++ [ERROR_in_scraper sqlite3_Error; ERROR_traceback])).
Proof.
  exact (store_failure_aborts_cycle Sample.ninth_call_fails smtp_accepts
           [Sample.slot_C; Sample.slot_good] Sample.fresh_world
           Sample.fresh_connection
           (snd (for_loop Sample.ninth_call_fails
                   [Sample.slot_C; Sample.slot_good] []
                   Sample.fresh_connection))
           eq_refl eq_refl).
Defined.

(** With the ninth call failing, the first record is on file and the
    second is not; nothing is mailed. *)
Example ninth_call_fails_cycle :
  run_scraper Sample.ninth_call_fails smtp_accepts
    (Ok [Sample.slot_C; Sample.slot_good]) Sample.fresh_world
  = (Ok tt,
     mk_world (with_row Sqlite.empty Sample.slot_C) []
       [ERROR_in_scraper sqlite3_Error; ERROR_traceback]).
Proof. vm_compute. reflexivity. Qed.

(** C9 as stated fails: the server refuses the login, no message leaves,
    and the row of the accepted record is on file with [sent_email = 1]. *)
Lemma notified_flag_counterexample :
  let w' := snd (run_scraper Sample.no_fault Sample.smtp_rejects_login
                   (Ok [Sample.slot_C]) Sample.fresh_world) in
  outbox w' = []
  /\ log w' = [ERROR_failed_to_send_email SMTPException]
  /\ map Sqlite.appointment_string (Sqlite.rows (disk w')) = ["Sun, C"]
  /\ map Sqlite.sent_email (Sqlite.rows (disk w')) = [1].
Proof. repeat split; vm_compute; reflexivity. Qed.

(** ** The notification *)

(** On appointment strings of code points 0..255, which hold no
    surrogate, [send_email] returns whatever the SMTP server does: an
    exception raised while connecting, in [starttls], in [login] or in
    [send_message] is caught and logged, no message leaves and the file is
    untouched; without an exception one message leaves. *)
Lemma send_email_returns_on_latin1
    (smtp : smtp_behaviour) (appointments : list string) (w : world) :
  (exists w',
     send_email smtp appointments w = (Ok tt, w')
     /\ disk w' = disk w
     /\ match first_failure smtp with
        | Some e =>
            outbox w' = outbox w
            /\ log w' = (log w ++ [ERROR_failed_to_send_email e])%list
        | None =>
            (exists m, outbox w' = (outbox w ++ [m])%list)
            /\ log w' = (log w ++ [INFO_email_sent])%list
        end)
  /\ (forall fault page,
        fst (run_scraper fault smtp page w)
        = fst (run_scraper fault smtp_accepts page w)
        /\ disk (snd (run_scraper fault smtp page w))
           = disk (snd (run_scraper fault smtp_accepts page w))).
Proof.
  split; [|intros fault page; apply run_scraper_disk_any_smtp].
  unfold send_email, try_except, bind, smtp_step, smtp_send_message,
    logging, raise, ret, first_failure.
  destruct smtp as [[e1|] [e2|] [e3|] [e4|]];
    cbn [on_connect on_starttls on_login on_send_message disk outbox log];
    eexists; repeat split; try reflexivity.
  eexists. reflexivity.
Qed.

(** ** Building the message *)

Lemma of_string_app (a b : string) :
  Unicode.of_string (a ++ b) = (Unicode.of_string a ++ Unicode.of_string b)%list.
Proof. induction a as [|c a IH]; cbn; [|rewrite IH]; reflexivity. Qed.

Lemma of_string_join (sep : string) (l : list string) :
  Unicode.of_string (Py.join sep l)
  = Unicode.join (Unicode.of_string sep) (map Unicode.of_string l).
Proof.
  induction l as [|x [|y l] IH]; try reflexivity.
  change (Py.join sep (x :: y :: l)) with (x ++ sep ++ Py.join sep (y :: l)).
  rewrite !of_string_app, IH. reflexivity.
Qed.


Lemma encodable_of_string (s : string) :
  Unicode.encodable (Unicode.of_string s) = true.
Proof.
  induction s as [|c s IH]; [reflexivity|].
  cbn [Unicode.of_string Unicode.encodable forallb].
  fold (Unicode.encodable (Unicode.of_string s)). rewrite IH, andb_true_r.
  unfold Unicode.is_surrogate. apply negb_true_iff, andb_false_iff. left.
  apply N.leb_gt. pose proof (N_ascii_bounded c). lia.
Qed.


(** On the alphabet of [string] the two embeddings of [send_email]
    agree. *)
Lemma send_email_str_of_string (smtp : smtp_behaviour)
    (appointments : list string) (w : world) :
  send_email_str smtp (map Unicode.of_string appointments) (as_mail_world w)
  = (fst (send_email smtp appointments w),
     as_mail_world (snd (send_email smtp appointments w))).
Proof.
  unfold send_email_str.
  rewrite <- of_string_join, <- !of_string_app, encodable_of_string.
  unfold send_email, try_except, bind, smtp_step, smtp_send_message,
    server_step, server_send_message, logging, journal_add, raise, ret.
  destruct smtp as [[e1|] [e2|] [e3|] [e4|]];
    cbn [on_connect on_starttls on_login on_send_message];
    try reflexivity.
  unfold as_mail_world. cbn [fst snd disk outbox log file sent journal].
  rewrite map_app. reflexivity.
Qed.



(** * Further properties *)

(** ** Time strings of the site *)

Lemma all_readings_as_tabulated_true : all_readings_as_tabulated = true.
Proof. vm_compute. reflexivity. Qed.

Lemma reading_table (h m : Z) :
  0 <= h <= 99 -> 0 <= m <= 99 -> reading_as_tabulated h m = true.
Proof.
  intros Hh Hm. pose proof all_readings_as_tabulated_true as T.
  unfold all_readings_as_tabulated in T. rewrite forallb_forall in T.
  specialize (T (Z.to_nat h)). rewrite in_seq in T.
  assert (T1 := T ltac:(lia)). clear T.
  rewrite forallb_forall in T1. specialize (T1 (Z.to_nat m)).
  rewrite in_seq, !Z2Nat.id in T1 by lia. apply T1. lia.
Qed.

Lemma reading_in_range (h m : Z) :
  0 <= h <= 24 -> 0 <= m <= 59 ->
  reading (hhmm h m) = Ok (if h =? 24 then 12 else h, m).
Proof.
  intros Hh Hm. pose proof (reading_table h m ltac:(lia) ltac:(lia)) as T.
  unfold reading_as_tabulated in T.
  assert (B : (h <=? 24) && (m <=? 59) = true)
    by (apply andb_true_iff; rewrite !Z.leb_le; lia).
  rewrite B in T. cbn [negb andb] in T.
  destruct (reading (hhmm h m)) as [[h' m']|e].
  - apply andb_prop in T as [T1 T2].
    apply Z.eqb_eq in T1, T2. now subst.
  - destruct e; discriminate.
Qed.

Lemma reading_out_of_range (h m : Z) :
  0 <= h <= 99 -> 0 <= m <= 99 -> 25 <= h \/ 60 <= m ->
  reading (hhmm h m) = Raise ValueError.
Proof.
  intros Hh Hm Hout. pose proof (reading_table h m Hh Hm) as T.
  unfold reading_as_tabulated in T.
  assert (B : (h <=? 24) && (m <=? 59) = false)
    by (apply andb_false_iff; rewrite !Z.leb_gt; lia).
  rewrite B in T. cbn [negb andb] in T.
  destruct (reading (hhmm h m)) as [[h' m']|e]; [discriminate|].
  destruct e; try discriminate. reflexivity.
Qed.

Lemma strptime_limits :
  Datetime.strptime WEEKDAY_START_TIME
  = Ok (Datetime.mk_datetime 1900 1 1 16 30 0 0)
  /\ Datetime.strptime WEEKEND_START_TIME
     = Ok (Datetime.mk_datetime 1900 1 1 9 0 0 0).
Proof. split; reflexivity. Qed.

(** The time rule of a record, from what the filter reads in its start
    time. *)
Lemma time_rule_of_reading (a time_str : string) (e i : Py.attr) (e' : string) :
  convert_24hr_to_12hr e = Ok e' ->
  time_rule (mk_element (Some a) (Some time_str) e i)
  = match reading time_str with
    | Ok (h, m) => Ok (limit_minutes a <=? 60 * h + m)
    | Raise x => Raise x
    end.
Proof.
  intros He. unfold time_rule, reading.
  cbn [data_starttime data_endtime data_appointmentdatelongstring].
  destruct (convert_24hr_to_12hr (Some time_str)) as [s|x]; [|reflexivity].
  rewrite He.
  fold (on_weekend a). unfold limit_minutes.
  destruct strptime_limits as [Lw Le].
  destruct (Datetime.strptime s) as [d|x] eqn:Hs.
  - destruct (on_weekend a).
    + rewrite (is_time_greater_or_equal_time_of_day _ _ _ _ Hs Le). reflexivity.
    + rewrite (is_time_greater_or_equal_time_of_day _ _ _ _ Hs Lw). reflexivity.
  - unfold is_time_greater_or_equal. rewrite Hs. reflexivity.
Qed.

(** X1.  A time of the site, HHMM with the hour from 00 to 23 and the
    minute from 00 to 59, survives the detour through the 12-hour string:
    [convert_24hr_to_12hr] returns a string that [strptime] reads back as
    the same hour and minute. *)
Theorem convert_then_strptime (h m : Z) :
  0 <= h <= 23 -> 0 <= m <= 59 ->
  exists s,
    convert_24hr_to_12hr (Some (hhmm h m)) = Ok s
    /\ Datetime.strptime s = Ok (Datetime.mk_datetime 1900 1 1 h m 0 0).
Proof.
  intros Hh Hm.
  pose proof (reading_in_range h m ltac:(lia) Hm) as R.
  unfold reading in R.
  destruct (convert_24hr_to_12hr (Some (hhmm h m))) as [s|x]; [|discriminate].
  exists s. split; [reflexivity|].
  destruct (Datetime.strptime s) as [d|x] eqn:Hs; [|discriminate].
  destruct (strptime_fields _ _ Hs) as (h' & m' & -> & _ & _).
  cbn [Datetime.hour Datetime.minute] in R.
  destruct (Z.eqb_spec h 24); [lia|].
  injection R as -> ->. reflexivity.
Qed.

Lemma convert_then_strptime_witness :
  exists s,
    convert_24hr_to_12hr (Some "0005") = Ok s
    /\ Datetime.strptime s = Ok (Datetime.mk_datetime 1900 1 1 0 5 0 0).
Proof. apply (convert_then_strptime 0 5); lia. Defined.

(** X2.  A record with a time of the site as start time, and an end time
    that converts, passes the time rule exactly when its start is at or
    after the limit of its day: 16:30 (990 minutes) unless the first
    field of the identifier is Sat or Sun, 09:00 (540 minutes) if it is.
    A record that does not pass costs no database call. *)
Theorem time_rule_is_the_threshold
    (fault : nat -> bool) (a : string) (h m : Z) (e i : Py.attr) (e' : string)
    (apps : list string) (c : Sqlite.connection) :
  0 <= h <= 23 -> 0 <= m <= 59 ->
  convert_24hr_to_12hr e = Ok e' ->
  let el := mk_element (Some a) (Some (hhmm h m)) e i in
  time_rule el = Ok (limit_minutes a <=? 60 * h + m)
  /\ (60 * h + m < limit_minutes a ->
      loop_body fault el apps c = (Ok apps, c)).
Proof.
  intros Hh Hm He el.
  assert (T : time_rule el = Ok (limit_minutes a <=? 60 * h + m)).
  { unfold el. rewrite (time_rule_of_reading _ _ _ _ _ He).
    rewrite reading_in_range by lia.
    destruct (Z.eqb_spec h 24); [lia | reflexivity]. }
  split; [exact T|].
  intros Hlt. apply loop_body_reject. rewrite T. f_equal.
  apply Z.leb_gt. exact Hlt.
Qed.

Lemma time_rule_is_the_threshold_witness :
  let el := mk_element (Some "Sat, B") (Some "0859") (Some "0959") None in
  time_rule el = Ok false
  /\ (60 * 8 + 59 < limit_minutes "Sat, B" ->
      loop_body Sample.no_fault el [] Sample.fresh_connection
      = (Ok [], Sample.fresh_connection)).
Proof.
  apply (time_rule_is_the_threshold Sample.no_fault "Sat, B" 8 59
           (Some "0959") None "9:59 AM" [] Sample.fresh_connection);
    first [lia | reflexivity].
Defined.

(** X3.  Out of range, the digits are not all refused alike.  An hour
    from 25 to 99 or a minute from 60 to 99 makes the time rule raise
    [ValueError]; hour 24 raises nothing and is read as hour 12 (12 PM). *)
Theorem time_rule_out_of_range
    (a : string) (h m : Z) (e i : Py.attr) (e' : string) :
  0 <= h <= 99 -> 0 <= m <= 99 ->
  convert_24hr_to_12hr e = Ok e' ->
  let el := mk_element (Some a) (Some (hhmm h m)) e i in
  (25 <= h \/ 60 <= m -> time_rule el = Raise ValueError)
  /\ (h = 24 -> m <= 59 ->
      time_rule el = Ok (limit_minutes a <=? 60 * 12 + m)).
Proof.
  intros Hh Hm He el. unfold el.
  rewrite (time_rule_of_reading _ _ _ _ _ He). split.
  - intros Hout. now rewrite reading_out_of_range.
  - intros -> Hm'. rewrite reading_in_range by lia. reflexivity.
Qed.

Lemma time_rule_out_of_range_witness :
  let el := mk_element (Some "Mon, X") (Some "2430") (Some "0100") None in
  (25 <= 24 \/ 60 <= 30 -> time_rule el = Raise ValueError)
  /\ (24 = 24 -> 30 <= 59 ->
      time_rule el = Ok (limit_minutes "Mon, X" <=? 60 * 12 + 30)).
Proof.
  apply (time_rule_out_of_range "Mon, X" 24 30 (Some "0100") None "1:00 AM");
    first [lia | reflexivity].
Defined.

(** X4.  On the strings that [strptime] accepts,
    [is_time_greater_or_equal] is a total preorder: every string is at or
    after itself, of two strings one is at or after the other, and the
    relation is transitive. *)
Theorem is_time_greater_or_equal_total_preorder
    (t1 t2 t3 : string) (d1 d2 d3 : Datetime.datetime) :
  Datetime.strptime t1 = Ok d1 ->
  Datetime.strptime t2 = Ok d2 ->
  Datetime.strptime t3 = Ok d3 ->
  is_time_greater_or_equal t1 t1 = Ok true
  /\ (is_time_greater_or_equal t1 t2 = Ok true
      \/ is_time_greater_or_equal t2 t1 = Ok true)
  /\ (is_time_greater_or_equal t1 t2 = Ok true ->
      is_time_greater_or_equal t2 t3 = Ok true ->
      is_time_greater_or_equal t1 t3 = Ok true).
Proof.
  intros H1 H2 H3.
  rewrite (is_time_greater_or_equal_time_of_day _ _ _ _ H1 H1),
    (is_time_greater_or_equal_time_of_day _ _ _ _ H1 H2),
    (is_time_greater_or_equal_time_of_day _ _ _ _ H2 H1),
    (is_time_greater_or_equal_time_of_day _ _ _ _ H2 H3),
    (is_time_greater_or_equal_time_of_day _ _ _ _ H1 H3).
  repeat split.
  - f_equal. apply Z.leb_refl.
  - destruct (Z.leb_spec (Datetime.time_of_day d2) (Datetime.time_of_day d1));
      [left | right; f_equal; apply Z.leb_le; lia]; reflexivity.
  - intros A B. injection A as A. injection B as B.
    apply Z.leb_le in A, B. f_equal. apply Z.leb_le. lia.
Qed.

Lemma is_time_greater_or_equal_total_preorder_witness :
  is_time_greater_or_equal "5:00 PM" "5:00 PM" = Ok true
  /\ (is_time_greater_or_equal "5:00 PM" "04:30 PM" = Ok true
      \/ is_time_greater_or_equal "04:30 PM" "5:00 PM" = Ok true)
  /\ (is_time_greater_or_equal "5:00 PM" "04:30 PM" = Ok true ->
      is_time_greater_or_equal "04:30 PM" "09:00 AM" = Ok true ->
      is_time_greater_or_equal "5:00 PM" "09:00 AM" = Ok true).
Proof.
  exact (is_time_greater_or_equal_total_preorder
           "5:00 PM" "04:30 PM" "09:00 AM" _ _ _ eq_refl eq_refl eq_refl).
Defined.

(** ** What the loop accepts and stores *)

Lemma novel_accepted_In (batch : list element) :
  forall seen el, In el (novel_accepted seen batch) ->
  In el batch /\ passes el = true /\ Py.mem (ident el) seen = false.
Proof.
  induction batch as [|el0 rest IH]; intros seen el Hin; [contradiction|].
  destruct (passes el0 && negb (Py.mem (ident el0) seen)) eqn:Hn.
  - apply andb_prop in Hn as [Hp Hm]. apply negb_true_iff in Hm.
    rewrite novel_accepted_keep in Hin by assumption.
    destruct Hin as [<-|Hin]; [cbn; auto|].
    destruct (IH _ _ Hin) as (Hb & Hp' & Hm').
    rewrite mem_app in Hm'. apply orb_false_iff in Hm' as [Hm' _].
    cbn; auto.
  - rewrite novel_accepted_skip in Hin by assumption.
    destruct (IH _ _ Hin) as (Hb & Hp' & Hm'). cbn; auto.
Qed.

Lemma novel_accepted_NoDup (batch : list element) :
  forall seen, NoDup (map ident (novel_accepted seen batch)).
Proof.
  induction batch as [|el0 rest IH]; intros seen; [constructor|].
  destruct (passes el0 && negb (Py.mem (ident el0) seen)) eqn:Hn.
  - apply andb_prop in Hn as [Hp Hm]. apply negb_true_iff in Hm.
    rewrite novel_accepted_keep by assumption. cbn [map].
    constructor; [|apply IH].
    intros Hin. apply in_map_iff in Hin as (el & He & Hin).
    apply novel_accepted_In in Hin as (_ & _ & Hm').
    rewrite mem_app, mem_single, <- He, String.eqb_refl, orb_true_r in Hm'.
    discriminate.
  - rewrite novel_accepted_skip by assumption. apply IH.
Qed.

Lemma novel_accepted_all_seen (batch : list element) (seen : list string) :
  (forall el, In el batch -> passes el = true -> In (ident el) seen) ->
  novel_accepted seen batch = [].
Proof.
  induction batch as [|el rest IH]; intros H; [reflexivity|].
  rewrite novel_accepted_skip.
  - apply IH. intros el' Hin. apply H. now right.
  - destruct (passes el) eqn:Hp; [|reflexivity].
    cbn. apply negb_false_iff, mem_In, H; [now left | exact Hp].
Qed.

Lemma fold_with_row_rows (l : list element) :
  forall t,
  fold_left with_row l t
  = Sqlite.mk_table (Sqlite.rows t ++ new_rows (Sqlite.last_id t) l)%list
      (Sqlite.last_id t + Z.of_nat (List.length l)).
Proof.
  induction l as [|el l IH]; intros t; cbn [fold_left new_rows].
  - cbn [List.length Z.of_nat]. rewrite app_nil_r, Z.add_0_r. now destruct t.
  - rewrite IH. unfold with_row. cbn [Sqlite.rows Sqlite.last_id].
    rewrite <- app_assoc. f_equal; try reflexivity.
    change (List.length (el :: l)) with (S (List.length l)). lia.
Qed.

Lemma new_rows_length (l : list element) :
  forall n, List.length (new_rows n l) = List.length l.
Proof. induction l as [|el l IH]; intros n; cbn; [|rewrite IH]; reflexivity. Qed.

Lemma with_row_ok (t : Sqlite.table) (el : element) :
  table_ok t -> ~ In (ident el) (Sqlite.keys t) -> table_ok (with_row t el).
Proof.
  intros (Hk & Hi & Hb) Hn. unfold table_ok.
  rewrite keys_with_row. unfold with_row. cbn [Sqlite.rows Sqlite.last_id].
  rewrite map_app. cbn [map row_of Sqlite.id].
  assert (Hlt : forall x, In x (map Sqlite.id (Sqlite.rows t)) ->
                          x <= Sqlite.last_id t).
  { intros x Hx. apply in_map_iff in Hx as (r & <- & Hr).
    rewrite Forall_forall in Hb. now apply Hb. }
  repeat split.
  - apply NoDup_app; [exact Hk | repeat constructor; cbn; tauto|].
    intros x Hx [<-|[]]. contradiction.
  - apply NoDup_app; [exact Hi | repeat constructor; cbn; tauto|].
    intros x Hx [<-|[]]. apply Hlt in Hx. lia.
  - apply Forall_app. split.
    + eapply Forall_impl; [|exact Hb]. cbn. intros; lia.
    + repeat constructor. cbn. lia.
Qed.

Lemma fold_with_row_ok (l : list element) :
  forall t,
  table_ok t -> NoDup (map ident l) ->
  (forall el, In el l -> ~ In (ident el) (Sqlite.keys t)) ->
  table_ok (fold_left with_row l t).
Proof.
  induction l as [|el l IH]; intros t Ht Hd Hn; [exact Ht|].
  cbn [fold_left]. cbn [map] in Hd. apply NoDup_cons_iff in Hd as [Hx Hd].
  apply IH; [|exact Hd|].
  - apply with_row_ok; [exact Ht|]. apply Hn. now left.
  - intros el' Hin. rewrite keys_with_row, in_app_iff.
    intros [H|[H|[]]].
    + revert H. apply Hn. now right.
    + apply Hx. rewrite H. now apply in_map.
Qed.

Lemma novel_accepted_table_ok (t : Sqlite.table) (batch : list element) :
  table_ok t ->
  table_ok (fold_left with_row (novel_accepted (Sqlite.keys t) batch) t)
  /\ extends t (fold_left with_row (novel_accepted (Sqlite.keys t) batch) t).
Proof.
  intros Ht. split.
  - apply fold_with_row_ok; [exact Ht | apply novel_accepted_NoDup|].
    intros el Hin. apply novel_accepted_In in Hin as (_ & _ & Hm).
    intros Hk. apply mem_In in Hk. congruence.
  - rewrite fold_with_row_rows. eexists. reflexivity.
Qed.

Section Stored.

Variable fault : nat -> bool.

(** X5.  What a returning loop accepts: the lines are those of records of
    the batch that pass the time rule and whose identifier was not in the
    table, no two of them with the same identifier. *)
Theorem accepted_pass_and_are_new
    (batch : list element) (c c' : Sqlite.connection) (out : list string) :
  for_loop fault batch [] c = (Ok out, c') ->
  let acc := novel_accepted (Sqlite.keys (Sqlite.working c)) batch in
  out = map entry acc
  /\ Forall (fun el => In el batch /\ passes el = true
                       /\ ~ In (ident el) (Sqlite.keys (Sqlite.working c))) acc
  /\ NoDup (map ident acc).
Proof.
  intros H. destruct (for_loop_ok fault batch _ _ _ _ H) as (Hout & _ & _).
  repeat split; [exact Hout | | apply novel_accepted_NoDup].
  apply Forall_forall. intros el Hin.
  apply novel_accepted_In in Hin as (Hb & Hp & Hm).
  repeat split; try assumption.
  intros Hk. apply mem_In in Hk. congruence.
Qed.

(** X6.  What a returning loop stores: the table the connection sees is
    the old one followed by one row per accepted record, in the order of
    acceptance, with consecutive ids after the AUTOINCREMENT counter; a
    connection with nothing pending has all of it committed. *)
Theorem loop_appends_one_row_per_accepted
    (batch : list element) (c c' : Sqlite.connection) (out : list string) :
  for_loop fault batch [] c = (Ok out, c') ->
  let t := Sqlite.working c in
  let acc := novel_accepted (Sqlite.keys t) batch in
  Sqlite.working c'
  = Sqlite.mk_table (Sqlite.rows t ++ new_rows (Sqlite.last_id t) acc)%list
      (Sqlite.last_id t + Z.of_nat (List.length acc))
  /\ List.length out = List.length acc
  /\ (clean c -> Sqlite.committed c' = Sqlite.working c').
Proof.
  intros H t acc.
  destruct (for_loop_ok fault batch _ _ _ _ H) as (Hout & Hw & _).
  repeat split.
  - rewrite Hw. apply fold_with_row_rows.
  - rewrite Hout. cbn [app]. apply List.length_map.
  - intros Hc. apply (for_loop_clean fault batch _ _ _ _ H Hc).
Qed.

(** X7.  Nothing that passes is dropped: after a returning loop, every
    record of the batch that passes the time rule has its identifier in
    the table, and looking it up finds a row. *)
Theorem passing_records_are_on_file
    (batch : list element) (c c' : Sqlite.connection) (out : list string)
    (el : element) :
  for_loop fault batch [] c = (Ok out, c') ->
  In el batch -> passes el = true ->
  In (ident el) (Sqlite.keys (Sqlite.working c'))
  /\ Sqlite.fetch_sent_email (Sqlite.working c') (ident el) <> None.
Proof.
  intros H Hin Hp.
  destruct (for_loop_ok fault batch _ _ _ _ H) as (_ & Hw & _).
  assert (Hk : In (ident el) (Sqlite.keys (Sqlite.working c'))).
  { rewrite Hw, keys_fold_with_row. now apply novel_accepted_covers. }
  split; [exact Hk|].
  intros Hf. apply fetch_sent_email_mem in Hf.
  apply mem_In in Hk. congruence.
Qed.

(** With every call answered and every record readable, the loop
    returns. *)
Lemma for_loop_returns (batch : list element) :
  answers fault -> readable batch ->
  forall apps c, exists out c', for_loop fault batch apps c = (Ok out, c').
Proof.
  intros Hf. induction batch as [|el rest IH]; intros Hr apps c.
  - exists apps, c. reflexivity.
  - inversion Hr as [|? ? [b Hb] Hr']; subst.
    rewrite for_loop_cons.
    pose proof (loop_body_iteration fault el apps c) as Hit.
    destruct (loop_body fault el apps c) as [[a|e] c1]; cbn [fst snd] in Hit.
    + apply IH, Hr'.
    + exfalso. inversion Hit; subst; try congruence;
        match goal with F : fault _ = true |- _ => rewrite Hf in F end;
        discriminate.
Qed.

(** Whatever the loop does, what is committed when it ends is what a
    returning loop over the first records of the batch leaves. *)
Lemma for_loop_committed (batch : list element) (c c' : Sqlite.connection)
    (r : result (list string)) :
  clean c ->
  for_loop fault batch [] c = (r, c') ->
  exists pre,
    Sqlite.committed c'
    = fold_left with_row
        (novel_accepted (Sqlite.keys (Sqlite.committed c)) pre)
        (Sqlite.committed c).
Proof.
  intros Hc H. destruct r as [out|e].
  - exists batch. rewrite (for_loop_clean fault batch _ _ _ _ H Hc).
    destruct (for_loop_ok fault batch _ _ _ _ H) as (_ & Hw & _).
    rewrite Hw, Hc. reflexivity.
  - destruct (for_loop_raise fault batch _ _ _ _ H)
      as (pre & el & post & apps & cpre & _ & Hpre & Hel).
    exists pre.
    pose proof (loop_body_iteration fault el apps cpre) as Hit.
    rewrite Hel in Hit. cbn [fst snd] in Hit.
    rewrite (iteration_raise_committed _ _ _ _ _ _ Hit).
    rewrite (for_loop_clean fault pre _ _ _ _ Hpre Hc).
    destruct (for_loop_ok fault pre _ _ _ _ Hpre) as (_ & Hw & _).
    rewrite Hw, Hc. reflexivity.
Qed.

End Stored.

Lemma some_pair_both {A B : Type} (a a' : A) (b b' : B) :
  Some (a, b) = Some (a', b') -> a' = a /\ b' = b.
Proof. intros H. split; congruence. Qed.

(** ** What a cycle does *)

Lemma send_email_accepted (smtp : smtp_behaviour) (apps : list string) (w : world) :
  first_failure smtp = None ->
  send_email smtp apps w
  = (Ok tt, mk_world (disk w) (outbox w ++ [notification apps])%list
              (log w ++ [INFO_email_sent])%list).
Proof.
  unfold first_failure. destruct smtp as [[e1|] [e2|] [e3|] [e4|]];
    cbn [on_connect on_starttls on_login on_send_message];
    intros H; try discriminate. reflexivity.
Qed.

Lemma send_email_refused (smtp : smtp_behaviour) (apps : list string) (w : world)
    (e : exn) :
  first_failure smtp = Some e ->
  send_email smtp apps w
  = (Ok tt, mk_world (disk w) (outbox w)
              (log w ++ [ERROR_failed_to_send_email e])%list).
Proof.
  unfold first_failure. destruct smtp as [[e1|] [e2|] [e3|] [e4|]];
    cbn [on_connect on_starttls on_login on_send_message];
    intros H; try discriminate; injection H as <-; reflexivity.
Qed.

Lemma initialize_database_opens (fault : nat -> bool) (d : Sqlite.table) :
  initialize_database fault d
  = if opens fault then Ok (Sqlite.mk_connection d d 3)
    else Raise sqlite3_Error.
Proof.
  unfold opens, initialize_database, Sqlite.connect, bind,
    Sqlite.create_table_if_not_exists, Sqlite.commit, Sqlite.call.
  destruct (fault 0%nat); [reflexivity|].
  cbn [Sqlite.calls Sqlite.working Sqlite.committed].
  destruct (fault 1%nat); [reflexivity|].
  cbn [Sqlite.calls Sqlite.working Sqlite.committed].
  destruct (fault 2%nat); reflexivity.
Qed.

Lemma answers_opens (fault : nat -> bool) : answers fault -> opens fault = true.
Proof. intros H. unfold opens. now rewrite !H. Qed.

Section CycleOutcome.

Variable fault : nat -> bool.
Variable smtp : smtp_behaviour.

(** The cycle whose loop returns. *)
Lemma run_scraper_loop_returns (batch : list element) (w : world)
    (c0 c1 : Sqlite.connection) (out : list string) :
  initialize_database fault (disk w) = Ok c0 ->
  for_loop fault batch [] c0 = (Ok out, c1) ->
  run_scraper fault smtp (Ok batch) w
  = match out with
    | [] => (Ok tt, mk_world (Sqlite.committed c1) (outbox w)
                      (log w ++ [INFO_no_new_appointments])%list)
    | _ :: _ =>
        match first_failure smtp with
        | None =>
            (Ok tt, mk_world (Sqlite.committed c1)
                      (outbox w ++ [notification out])%list
                      (log w ++ [INFO_email_sent])%list)
        | Some e =>
            (Ok tt, mk_world (Sqlite.committed c1) (outbox w)
                      (log w ++ [ERROR_failed_to_send_email e])%list)
        end
    end.
Proof.
  intros Hi Hl. unfold run_scraper, try_block. rewrite Hi, Hl.
  destruct out as [|a out]; [reflexivity|].
  destruct (first_failure smtp) as [e|] eqn:Hf.
  - rewrite (send_email_refused _ _ _ _ Hf). reflexivity.
  - rewrite (send_email_accepted _ _ _ Hf). reflexivity.
Qed.

(** The cycle with every call answered and every record readable. *)
Lemma run_scraper_answered (batch : list element) (w : world) :
  answers fault -> readable batch ->
  let acc := novel_accepted (Sqlite.keys (disk w)) batch in
  let d := fold_left with_row acc (disk w) in
  run_scraper fault smtp (Ok batch) w
  = match acc with
    | [] => (Ok tt, mk_world d (outbox w)
                      (log w ++ [INFO_no_new_appointments])%list)
    | _ :: _ =>
        match first_failure smtp with
        | None =>
            (Ok tt, mk_world d (outbox w ++ [notification (map entry acc)])%list
                      (log w ++ [INFO_email_sent])%list)
        | Some e =>
            (Ok tt, mk_world d (outbox w)
                      (log w ++ [ERROR_failed_to_send_email e])%list)
        end
    end.
Proof.
  intros Hf Hr acc d.
  pose proof (initialize_database_opens fault (disk w)) as Hi.
  rewrite (answers_opens _ Hf) in Hi.
  destruct (for_loop_returns fault batch Hf Hr [] (Sqlite.mk_connection (disk w) (disk w) 3))
    as (out & c1 & Hl).
  rewrite (run_scraper_loop_returns _ _ _ _ _ Hi Hl).
  destruct (for_loop_ok fault batch _ _ _ _ Hl) as (Hout & Hw & _).
  cbn [Sqlite.working app] in Hout, Hw.
  assert (Hc : Sqlite.committed c1 = d).
  { rewrite (for_loop_clean fault batch _ _ _ _ Hl) by reflexivity. exact Hw. }
  rewrite Hc, Hout. fold acc.
  destruct acc; reflexivity.
Qed.

(** X8.  A cycle in which the database and the server answer and every
    record is readable, with at least one accepted record, ends with the
    rows of the accepted records on file, one message that lists their
    lines in order, and the record of the sending in the log. *)
Theorem cycle_with_news (batch : list element) (w : world) :
  answers fault -> readable batch -> first_failure smtp = None ->
  let acc := novel_accepted (Sqlite.keys (disk w)) batch in
  acc <> [] ->
  run_scraper fault smtp (Ok batch) w
  = (Ok tt,
     mk_world (fold_left with_row acc (disk w))
       (outbox w ++ [notification (map entry acc)])%list
       (log w ++ [INFO_email_sent])%list).
Proof.
  intros Hf Hr Hs acc Hne.
  rewrite (run_scraper_answered _ _ Hf Hr). fold acc. rewrite Hs.
  destruct acc; [contradiction | reflexivity].
Qed.

(** X9.  A cycle in which the database answers, every record is readable
    and no record is both passing and new (an empty batch among them)
    sends nothing, leaves the file as it is, and logs that there is
    nothing new. *)
Theorem cycle_without_news (batch : list element) (w : world) :
  answers fault -> readable batch ->
  novel_accepted (Sqlite.keys (disk w)) batch = [] ->
  run_scraper fault smtp (Ok batch) w
  = (Ok tt,
     mk_world (disk w) (outbox w) (log w ++ [INFO_no_new_appointments])%list).
Proof.
  intros Hf Hr He.
  rewrite (run_scraper_answered _ _ Hf Hr), He. reflexivity.
Qed.

End CycleOutcome.

Lemma cycle_with_news_witness :
  run_scraper Sample.no_fault smtp_accepts
    (Ok [Sample.slot_A; Sample.slot_C; Sample.slot_good]) Sample.fresh_world
  = (Ok tt,
     mk_world
       (with_row (with_row Sqlite.empty Sample.slot_C) Sample.slot_good)
       [notification [entry Sample.slot_C; entry Sample.slot_good]]
       [INFO_email_sent]).
Proof.
  apply (cycle_with_news Sample.no_fault smtp_accepts
           [Sample.slot_A; Sample.slot_C; Sample.slot_good] Sample.fresh_world).
  - intros k. reflexivity.
  - repeat constructor; eexists; vm_compute; reflexivity.
  - reflexivity.
  - vm_compute. discriminate.
Defined.

Lemma cycle_without_news_witness :
  run_scraper Sample.no_fault Sample.smtp_rejects_login
    (Ok [Sample.slot_A; Sample.slot_B]) Sample.fresh_world
  = (Ok tt, mk_world Sqlite.empty [] [INFO_no_new_appointments]).
Proof.
  apply (cycle_without_news Sample.no_fault Sample.smtp_rejects_login
           [Sample.slot_A; Sample.slot_B] Sample.fresh_world).
  - intros k. reflexivity.
  - repeat constructor; eexists; vm_compute; reflexivity.
  - vm_compute. reflexivity.
Defined.

Lemma run_scraper_cannot_open (fault : nat -> bool) (smtp : smtp_behaviour)
    (page : result (list element)) (w : world) :
  opens fault = false ->
  run_scraper fault smtp page w = (Raise sqlite3_Error, w).
Proof.
  intros H. unfold run_scraper.
  now rewrite initialize_database_opens, H.
Qed.

Lemma run_scraper_page_raises (fault : nat -> bool) (smtp : smtp_behaviour)
    (e : exn) (w : world) :
  opens fault = true ->
  run_scraper fault smtp (Raise e) w
  = (Ok tt, mk_world (disk w) (outbox w)
              (log w ++ [ERROR_in_scraper e; ERROR_traceback])%list).
Proof.
  intros H. unfold run_scraper, try_block.
  rewrite initialize_database_opens, H. cbn. rewrite <- app_assoc. reflexivity.
Qed.

(** Every way a cycle over a batch can end, once the database opens:
    the file holds the rows of the records accepted among the first
    records of the batch, and the message, if any, lists them. *)
Lemma run_scraper_opened (fault : nat -> bool) (smtp : smtp_behaviour)
    (batch : list element) (w : world) :
  opens fault = true ->
  exists pre,
    let acc := novel_accepted (Sqlite.keys (disk w)) pre in
    let d := fold_left with_row acc (disk w) in
    (exists l,
       run_scraper fault smtp (Ok batch) w
       = (Ok tt, mk_world d (outbox w) (log w ++ l)%list))
    \/ (acc <> []
        /\ run_scraper fault smtp (Ok batch) w
           = (Ok tt, mk_world d (outbox w ++ [notification (map entry acc)])%list
                       (log w ++ [INFO_email_sent])%list)).
Proof.
  intros Ho.
  pose proof (initialize_database_opens fault (disk w)) as Hi.
  rewrite Ho in Hi.
  set (c0 := Sqlite.mk_connection (disk w) (disk w) 3) in *.
  assert (Hc : clean c0) by reflexivity.
  destruct (for_loop fault batch [] c0) as [r c1] eqn:Hl.
  destruct (for_loop_committed fault batch _ _ _ Hc Hl) as (pre & Hd).
  cbn [Sqlite.committed c0] in Hd.
  destruct r as [out|e].
  - exists batch. cbn zeta.
    destruct (for_loop_ok fault batch _ _ _ _ Hl) as (Hout & Hw & _).
    cbn [Sqlite.working c0 app] in Hout, Hw.
    rewrite (run_scraper_loop_returns _ _ _ _ _ _ _ Hi Hl).
    rewrite (for_loop_clean fault batch _ _ _ _ Hl Hc), Hw.
    destruct out as [|a out]; [left; eexists; reflexivity|].
    destruct (first_failure smtp); [left; eexists; reflexivity|].
    right. rewrite <- Hout. split; [|reflexivity].
    intros E. rewrite E in Hout. discriminate.
  - exists pre. cbn zeta. left.
    rewrite (run_scraper_loop_raises _ _ _ _ _ _ _ Hi Hl), Hd.
    eexists. reflexivity.
Qed.

(** What a cycle can do to the outbox and, with it, to the file. *)
Lemma run_scraper_outbox
    (fault : nat -> bool) (smtp : smtp_behaviour)
    (page : result (list element)) (w : world) :
  outbox (snd (run_scraper fault smtp page w)) = outbox w
  \/ exists acc,
       acc <> []
       /\ outbox (snd (run_scraper fault smtp page w))
          = (outbox w ++ [notification (map entry acc)])%list
       /\ Sqlite.rows (disk (snd (run_scraper fault smtp page w)))
          = (Sqlite.rows (disk w) ++ new_rows (Sqlite.last_id (disk w)) acc)%list
       /\ Forall (fun el => passes el = true
                            /\ ~ In (ident el) (Sqlite.keys (disk w))) acc
       /\ NoDup (map ident acc).
Proof.
  destruct (opens fault) eqn:Ho.
  2:{ left. now rewrite run_scraper_cannot_open. }
  destruct page as [batch|e].
  2:{ left. now rewrite run_scraper_page_raises. }
  destruct (run_scraper_opened fault smtp batch w Ho) as (pre & [[l H]|[Hne H]]);
    rewrite H; cbn [snd outbox disk].
  - left. reflexivity.
  - right. eexists. split; [exact Hne|]. split; [reflexivity|].
    split; [rewrite fold_with_row_rows; reflexivity|].
    split; [|apply novel_accepted_NoDup].
    apply Forall_forall. intros el Hin.
    apply novel_accepted_In in Hin as (_ & Hp & Hm).
    split; [exact Hp|]. intros Hk. apply mem_In in Hk. congruence.
Qed.

(** X10.  However a cycle goes, it sends at most one message, and it
    sends one only together with new rows: either the outbox is as
    before, or it gained the one message that lists, in order, the lines
    of some records, not none, that pass the time rule, were not on file
    and have distinct identifiers, and the file gained exactly their
    rows. *)
Theorem message_only_with_new_rows
    (fault : nat -> bool) (smtp : smtp_behaviour)
    (page : result (list element)) (w : world) :
  let w' := snd (run_scraper fault smtp page w) in
  outbox w' = outbox w
  \/ exists acc,
       acc <> []
       /\ outbox w' = (outbox w ++ [notification (map entry acc)])%list
       /\ Sqlite.rows (disk w')
          = (Sqlite.rows (disk w) ++ new_rows (Sqlite.last_id (disk w)) acc)%list
       /\ Forall (fun el => passes el = true
                            /\ ~ In (ident el) (Sqlite.keys (disk w))) acc
       /\ NoDup (map ident acc).
Proof. cbn zeta. apply run_scraper_outbox. Qed.

Lemma run_scraper_result_by_opening
    (fault : nat -> bool) (smtp : smtp_behaviour)
    (page : result (list element)) (w : world) :
  if opens fault
  then fst (run_scraper fault smtp page w) = Ok tt
  else run_scraper fault smtp page w = (Raise sqlite3_Error, w).
Proof.
  destruct (opens fault) eqn:Ho.
  - unfold run_scraper. rewrite initialize_database_opens, Ho.
    destruct (try_block _ _ _ _ _) as [[r c] w']. reflexivity.
  - now apply run_scraper_cannot_open.
Qed.


Lemma main_iteration_by_crash (t : tick) (p : process) :
  match crash t with
  | None =>
      env (main_iteration t p)
      = snd (run_scraper (tick_fault t) (tick_smtp t) (tick_page t) (env p))
      /\ slept (main_iteration t p) = slept p + 900
      /\ app_log (main_iteration t p)
         = (app_log p
            ++ [INFO_starting_the_scraper; INFO_scraper_completed_sleeping])%list
  | Some e =>
      main_iteration t p
      = mk_process (env p)
          (app_log p
           ++ [INFO_starting_the_scraper; ERROR_application_crashed e;
               ERROR_crash_traceback])%list
          (slept p)
  end.
Proof.
  pose proof (run_scraper_result_by_opening (tick_fault t) (tick_smtp t)
                (tick_page t) (env p)) as H.
  unfold main_iteration, run_scraper_from_start, crash.
  destruct (tick_driver t) as [e|]; [reflexivity|].
  destruct (opens (tick_fault t)).
  - destruct (run_scraper _ _ _ _) as [[u|e] w']; [|discriminate].
    repeat split; reflexivity.
  - rewrite H. reflexivity.
Qed.

Lemma extends_refl (t : Sqlite.table) : extends t t.
Proof. exists []. now rewrite app_nil_r. Qed.

Lemma extends_trans (t1 t2 t3 : Sqlite.table) :
  extends t1 t2 -> extends t2 t3 -> extends t1 t3.
Proof.
  intros [n1 H1] [n2 H2]. exists (n1 ++ n2)%list.
  now rewrite H2, H1, app_assoc.
Qed.

Lemma run_scraper_keeps_table
    (fault : nat -> bool) (smtp : smtp_behaviour)
    (page : result (list element)) (w : world) :
  table_ok (disk w) ->
  table_ok (disk (snd (run_scraper fault smtp page w)))
  /\ extends (disk w) (disk (snd (run_scraper fault smtp page w))).
Proof.
  intros Ht. destruct (opens fault) eqn:Ho.
  2:{ rewrite run_scraper_cannot_open by assumption.
      split; [exact Ht | apply extends_refl]. }
  destruct page as [batch|e].
  2:{ rewrite run_scraper_page_raises by assumption.
      split; [exact Ht | apply extends_refl]. }
  destruct (run_scraper_opened fault smtp batch w Ho) as (pre & [[l H]|[_ H]]);
    rewrite H; cbn [snd disk]; now apply novel_accepted_table_ok.
Qed.

(** X12.  Through any number of iterations of the main loop, whatever
    the database, the server and the site do, the table keeps its
    constraints (unique identifiers, unique row ids below the counter)
    and only grows: the earlier rows stay, in place and unchanged. *)
Theorem main_loop_keeps_table (ticks : list tick) (p : process) :
  table_ok (disk (env p)) ->
  table_ok (disk (env (main_loop ticks p)))
  /\ extends (disk (env p)) (disk (env (main_loop ticks p))).
Proof.
  revert p. induction ticks as [|t ticks IH]; intros p Ht; cbn [main_loop].
  - split; [exact Ht | apply extends_refl].
  - pose proof (run_scraper_keeps_table (tick_fault t) (tick_smtp t)
                  (tick_page t) (env p) Ht) as [H1 H2].
    assert (E : table_ok (disk (env (main_iteration t p)))
                /\ extends (disk (env p)) (disk (env (main_iteration t p)))).
    { pose proof (main_iteration_by_crash t p) as Hit.
      destruct (crash t) as [e|].
      - rewrite Hit. cbn [env]. split; [exact Ht | apply extends_refl].
      - destruct Hit as [-> _]. split; assumption. }
    destruct E as [E1 E2]. destruct (IH _ E1) as [H3 H4].
    split; [exact H3 | eapply extends_trans; eassumption].
Qed.

(** X13.  An iteration of the main loop sleeps the interval, 900
    seconds, exactly when its cycle returned.  When the browser does not
    start or the database cannot be opened, the iteration logs the crash,
    changes nothing else and does not sleep, so the next iteration starts
    at once. *)
Theorem main_iteration_sleeps_unless_crashed (t : tick) (p : process) :
  match crash t with
  | None =>
      env (main_iteration t p)
      = snd (run_scraper (tick_fault t) (tick_smtp t) (tick_page t) (env p))
      /\ slept (main_iteration t p) = slept p + 900
      /\ app_log (main_iteration t p)
         = (app_log p
            ++ [INFO_starting_the_scraper; INFO_scraper_completed_sleeping])%list
  | Some e =>
      main_iteration t p
      = mk_process (env p)
          (app_log p
           ++ [INFO_starting_the_scraper; ERROR_application_crashed e;
               ERROR_crash_traceback])%list
          (slept p)
  end.
Proof. apply main_iteration_by_crash. Qed.

(** ** Cycles one after another *)

Lemma disk_after_answered (fault : nat -> bool) (smtp : smtp_behaviour)
    (batch : list element) (w : world) :
  answers fault -> readable batch ->
  disk (snd (run_scraper fault smtp (Ok batch) w))
  = fold_left with_row (novel_accepted (Sqlite.keys (disk w)) batch) (disk w).
Proof.
  intros Hf Hr. rewrite (run_scraper_answered _ _ _ _ Hf Hr).
  destruct (novel_accepted _ batch); [reflexivity|].
  destruct (first_failure smtp); reflexivity.
Qed.

Lemma novel_accepted_again (seen : list string) (batch : list element) :
  novel_accepted (seen ++ map ident (novel_accepted seen batch)) batch = [].
Proof.
  apply novel_accepted_all_seen. intros el Hin Hp.
  now apply novel_accepted_covers.
Qed.

(** X14.  Two cycles on the same batch, with the database answering and
    every record readable: whatever the first did, the second sends
    nothing, leaves the file as the first left it, and logs that there is
    nothing new. *)
Theorem second_cycle_is_quiet
    (fault1 fault2 : nat -> bool) (smtp1 smtp2 : smtp_behaviour)
    (batch : list element) (w : world) :
  answers fault1 -> answers fault2 -> readable batch ->
  let w1 := snd (run_scraper fault1 smtp1 (Ok batch) w) in
  run_scraper fault2 smtp2 (Ok batch) w1
  = (Ok tt,
     mk_world (disk w1) (outbox w1) (log w1 ++ [INFO_no_new_appointments])%list).
Proof.
  intros H1 H2 Hr w1.
  assert (Hd : novel_accepted (Sqlite.keys (disk w1)) batch = []).
  { unfold w1. rewrite (disk_after_answered _ _ _ _ H1 Hr), keys_fold_with_row.
    apply novel_accepted_again. }
  rewrite (run_scraper_answered _ _ _ _ H2 Hr), Hd. reflexivity.
Qed.

Lemma second_cycle_is_quiet_witness :
  let w1 := snd (run_scraper Sample.no_fault smtp_accepts
                   (Ok [Sample.slot_C; Sample.slot_good]) Sample.fresh_world) in
  run_scraper Sample.no_fault smtp_accepts
    (Ok [Sample.slot_C; Sample.slot_good]) w1
  = (Ok tt,
     mk_world (disk w1) (outbox w1) (log w1 ++ [INFO_no_new_appointments])%list).
Proof.
  apply (second_cycle_is_quiet Sample.no_fault Sample.no_fault
           smtp_accepts smtp_accepts
           [Sample.slot_C; Sample.slot_good] Sample.fresh_world).
  - intros k. reflexivity.
  - intros k. reflexivity.
  - repeat constructor; eexists; vm_compute; reflexivity.
Defined.

(** X15.  A refused message is never sent again.  When the server fails
    in a cycle that accepted records, their rows are on file all the
    same, and a later cycle on the same batch, even with a server that
    accepts, sends nothing: after both cycles the outbox is as it was
    before the first. *)
Theorem refused_message_is_never_resent
    (fault1 fault2 : nat -> bool) (smtp1 smtp2 : smtp_behaviour)
    (batch : list element) (w : world) (e : exn) :
  answers fault1 -> answers fault2 -> readable batch ->
  first_failure smtp1 = Some e ->
  let acc := novel_accepted (Sqlite.keys (disk w)) batch in
  acc <> [] ->
  snd (run_scraper fault2 smtp2 (Ok batch)
         (snd (run_scraper fault1 smtp1 (Ok batch) w)))
  = mk_world (fold_left with_row acc (disk w)) (outbox w)
      (log w ++ [ERROR_failed_to_send_email e; INFO_no_new_appointments])%list.
Proof.
  intros H1 H2 Hr Hs acc Hne.
  assert (E1 : snd (run_scraper fault1 smtp1 (Ok batch) w)
               = mk_world (fold_left with_row acc (disk w)) (outbox w)
                   (log w ++ [ERROR_failed_to_send_email e])%list).
  { rewrite (run_scraper_answered _ _ _ _ H1 Hr). fold acc. rewrite Hs.
    destruct acc; [contradiction | reflexivity]. }
  rewrite E1.
  rewrite (run_scraper_answered _ _ _ _ H2 Hr). cbn [disk outbox log].
  rewrite keys_fold_with_row. unfold acc. rewrite novel_accepted_again.
  cbn [snd fold_left]. rewrite <- app_assoc. reflexivity.
Qed.

Lemma refused_message_is_never_resent_witness :
  snd (run_scraper Sample.no_fault smtp_accepts (Ok [Sample.slot_C])
         (snd (run_scraper Sample.no_fault Sample.smtp_rejects_login
                 (Ok [Sample.slot_C]) Sample.fresh_world)))
  = mk_world (with_row Sqlite.empty Sample.slot_C) []
      [ERROR_failed_to_send_email SMTPException; INFO_no_new_appointments].
Proof.
  apply (refused_message_is_never_resent Sample.no_fault Sample.no_fault
           Sample.smtp_rejects_login smtp_accepts [Sample.slot_C]
           Sample.fresh_world SMTPException).
  - intros k. reflexivity.
  - intros k. reflexivity.
  - repeat constructor; eexists; vm_compute; reflexivity.
  - reflexivity.
  - vm_compute. discriminate.
Defined.






(** ** The main loop *)

(** X17.  Over any number of iterations the main loop has slept 900
    seconds for each iteration whose cycle returned and not at all for
    the others, and has sent at most one message per iteration. *)
Theorem main_loop_accounting (ticks : list tick) (p : process) :
  slept (main_loop ticks p)
  = slept p + 900 * Z.of_nat (List.length (filter completes ticks))
  /\ (List.length (outbox (env (main_loop ticks p)))
      <= List.length (outbox (env p)) + List.length ticks)%nat.
Proof.
  revert p. induction ticks as [|t ticks IH]; intros p.
  - cbn. split; lia.
  - cbn [main_loop filter]. destruct (IH (main_iteration t p)) as [Hs Ho].
    pose proof (main_iteration_by_crash t p) as Hit.
    assert (Hone : slept (main_iteration t p)
                   = slept p + (if completes t then 900 else 0)
                   /\ (List.length (outbox (env (main_iteration t p)))
                       <= S (List.length (outbox (env p))))%nat).
    { unfold completes. destruct (crash t) as [e|].
      - rewrite Hit. cbn [slept env]. split; lia.
      - destruct Hit as (-> & -> & _). split; [reflexivity|].
        destruct (run_scraper_outbox (tick_fault t) (tick_smtp t)
                    (tick_page t) (env p))
          as [H|(acc & _ & H & _)]; rewrite H; [lia|].
        rewrite length_app. cbn. lia. }
    destruct Hone as [Hsl Hout]. rewrite Hs, Hsl.
    destruct (completes t); cbn [List.length]; split; lia.
Qed.
(** ** The strings that can be compared *)

Lemma digit_strings_as_written_true : digit_strings_as_written = true.
Proof. vm_compute. reflexivity. Qed.

Lemma char_of_code (c : ascii) : ascii_of_nat (Z.to_nat (Py.code c)) = c.
Proof.
  unfold Py.code.
  replace (Z.to_nat (Z.of_N (N_of_ascii c))) with (nat_of_ascii c)
    by (unfold nat_of_ascii; destruct (N_of_ascii c); reflexivity).
  apply ascii_nat_embedding.
Qed.

Lemma one_digit_written (c : ascii) :
  Py.is_digit c = true -> Py.str_of_int (Py.digit_value c) = String c "".
Proof.
  intros H. apply in_range_code in H.
  pose proof digit_strings_as_written_true as T.
  unfold digit_strings_as_written in T. apply andb_prop in T as [T _].
  rewrite forallb_forall in T. specialize (T (Z.to_nat (Py.code c))).
  rewrite in_seq, Z2Nat.id, char_of_code in T by lia.
  apply String.eqb_eq, T. lia.
Qed.

Lemma two_digits_written (c c' : ascii) :
  Py.in_range 49 57 c = true -> Py.is_digit c' = true ->
  Py.str_of_int (10 * Py.digit_value c + Py.digit_value c')
  = String c (String c' "").
Proof.
  intros H H'. apply in_range_code in H, H'.
  pose proof digit_strings_as_written_true as T.
  unfold digit_strings_as_written in T. apply andb_prop in T as [_ T].
  rewrite forallb_forall in T. specialize (T (Z.to_nat (Py.code c))).
  rewrite in_seq in T. assert (T1 := T ltac:(lia)). clear T.
  rewrite forallb_forall in T1. specialize (T1 (Z.to_nat (Py.code c'))).
  rewrite in_seq, !Z2Nat.id, !char_of_code in T1 by lia.
  apply String.eqb_eq, T1. lia.
Qed.

Lemma in_range_weaken (lo hi lo' hi' : Z) (c : ascii) :
  lo' <= lo -> hi <= hi' ->
  Py.in_range lo hi c = true -> Py.in_range lo' hi' c = true.
Proof.
  intros Hlo Hhi H. apply in_range_code in H. unfold Py.in_range.
  apply andb_true_iff. rewrite !Z.leb_le. lia.
Qed.

Lemma two_digits_unpadded (z : Z) : two_digits false z = Py.str_of_int z.
Proof. reflexivity. Qed.

Lemma two_digits_padded_small (z : Z) :
  z < 10 -> two_digits true z = String "0" (Py.str_of_int z).
Proof.
  intros H. unfold two_digits. cbn [andb].
  destruct (Z.ltb_spec z 10); [reflexivity | lia].
Qed.

(** What [%I] consumes is the written hour. *)
Lemma directive_I_written (s r : string) (h : Z) :
  Datetime.directive_I s = Some (h, r) ->
  exists pad, s = two_digits pad h ++ r.
Proof.
  unfold Datetime.directive_I.
  destruct s as [|c [|c' s']]; [discriminate| |].
  - destruct (Py.in_range 49 57 c) eqn:E; [|discriminate].
    intros H. injection H as <- <-. exists false.
    rewrite two_digits_unpadded, one_digit_written; [reflexivity|].
    eapply in_range_weaken; [| |exact E]; lia.
  - destruct (Ascii.eqb c "1" && Py.in_range 48 50 c') eqn:E1.
    { apply andb_prop in E1 as [Ec E1]. apply Ascii.eqb_eq in Ec. subst c.
      intros H. apply some_pair_both in H as [-> ->]. exists false.
      rewrite two_digits_unpadded.
      change 10 with (10 * Py.digit_value "1").
      rewrite two_digits_written; [reflexivity | reflexivity|].
      eapply in_range_weaken; [| |exact E1]; lia. }
    destruct (Ascii.eqb c "0" && Py.in_range 49 57 c') eqn:E2.
    { apply andb_prop in E2 as [Ec E2]. apply Ascii.eqb_eq in Ec. subst c.
      intros H. apply some_pair_both in H as [-> ->]. exists true.
      pose proof (in_range_code _ _ _ E2) as R.
      rewrite two_digits_padded_small by (unfold Py.digit_value; lia).
      rewrite one_digit_written; [reflexivity|].
      eapply in_range_weaken; [| |exact E2]; lia. }
    destruct (Py.in_range 49 57 c) eqn:E; [|discriminate].
    intros H. apply some_pair_both in H as [-> ->]. exists false.
    rewrite two_digits_unpadded, one_digit_written; [reflexivity|].
    eapply in_range_weaken; [| |exact E]; lia.
Qed.

(** What [%M] consumes is the written minute. *)
Lemma directive_M_written (s r : string) (m : Z) :
  Datetime.directive_M s = Some (m, r) ->
  exists pad, s = two_digits pad m ++ r.
Proof.
  unfold Datetime.directive_M.
  destruct s as [|c s']; [discriminate|].
  destruct (Py.is_digit c) eqn:Hc; [|discriminate].
  assert (Single : forall rest, String c rest = two_digits false (Py.digit_value c) ++ rest).
  { intros rest. now rewrite two_digits_unpadded, one_digit_written. }
  destruct s' as [|c' s''].
  - intros H. apply some_pair_both in H as [-> ->]. exists false. apply Single.
  - destruct (Py.in_range 48 53 c && Py.is_digit c') eqn:E;
      intros H; apply some_pair_both in H as [-> ->];
      [|exists false; apply Single].
    apply andb_prop in E as [E1 E2].
    destruct (Py.in_range 49 57 c) eqn:E3.
    + exists false. rewrite two_digits_unpadded, two_digits_written by assumption.
      reflexivity.
    + assert (Ez : Py.digit_value c = 0).
      { apply in_range_code in E1. unfold Py.in_range in E3.
        apply andb_false_iff in E3. rewrite !Z.leb_gt in E3.
        unfold Py.digit_value. lia. }
      assert (Ec : String c "" = "0").
      { rewrite <- (one_digit_written c Hc), Ez. reflexivity. }
      injection Ec as ->.
      exists true. rewrite Ez, Z.mul_0_r, Z.add_0_l.
      pose proof (digit_value_range c' E2).
      rewrite two_digits_padded_small by lia.
      rewrite one_digit_written by assumption. reflexivity.
Qed.

Lemma drop_while_split (p : ascii -> bool) (s : string) :
  exists g, s = g ++ Py.drop_while p s /\ Py.all_chars p g = true.
Proof.
  induction s as [|c s [g [Hs Hg]]]; cbn [Py.drop_while].
  - exists "". auto.
  - destruct (p c) eqn:Hc.
    + exists (String c g). cbn [append Py.all_chars].
      rewrite Hc, Hg, <- Hs. auto.
    + exists "". auto.
Qed.

Lemma directive_p_written (s : string) (pm : bool) :
  Datetime.directive_p s = Some (pm, "") ->
  exists u1 u2, s = meridiem (mk_spelling false false "" u1 u2) pm.
Proof.
  unfold Datetime.directive_p, meridiem. cbn [upper_first upper_second].
  destruct s as [|a [|m r]]; try discriminate.
  destruct (Ascii.eqb_spec m "M") as [->|_];
    [|destruct (Ascii.eqb_spec m "m") as [->|_]; [|discriminate]];
    cbn [orb];
    (destruct (Ascii.eqb_spec a "A") as [->|_];
     [|destruct (Ascii.eqb_spec a "a") as [->|_];
       [|destruct (Ascii.eqb_spec a "P") as [->|_];
         [|destruct (Ascii.eqb_spec a "p") as [->|_]; [|discriminate]]]]);
    cbn [orb]; intros H; injection H as <- <-;
    first [ exists true, true; reflexivity | exists true, false; reflexivity
          | exists false, true; reflexivity | exists false, false; reflexivity ].
Qed.

(** Every string that [strptime] accepts is a well-formed reading in
    some spelling. *)
Lemma strptime_written (s : string) (d : Datetime.datetime) :
  Datetime.strptime s = Ok d -> written s.
Proof.
  unfold Datetime.strptime.
  destruct (Datetime.directive_I s) as [[h r]|] eqn:HI; [|discriminate].
  destruct r as [|colon r1]; [discriminate|].
  destruct (Ascii.eqb_spec colon ":") as [->|_]; [|discriminate].
  destruct (Datetime.directive_M r1) as [[m r2]|] eqn:HM; [|discriminate].
  destruct r2 as [|w r2]; [discriminate|].
  destruct (Py.is_space w) eqn:Hw; [|discriminate].
  destruct (Datetime.directive_p _) as [[pm [|? ?]]|] eqn:Hp; try discriminate.
  intros _.
  pose proof (directive_I_range _ _ _ HI) as Rh.
  pose proof (directive_M_range _ _ _ HM) as Rm.
  apply directive_I_written in HI as [ph ->].
  apply directive_M_written in HM as [pmin ->].
  destruct (drop_while_split Py.is_space r2) as (g & Hg & Hall).
  apply directive_p_written in Hp as (u1 & u2 & Hp).
  exists (mk_time12 h m pm), (mk_spelling ph pmin (String w g) u1 u2).
  split; [split; cbn; lia|]. split.
  - split; [discriminate|]. cbn [gap Py.all_chars]. now rewrite Hw, Hall.
  - unfold write12. cbn [hour12 minute12 pm12 pad_hour pad_minute gap].
    rewrite Hg at 1. rewrite Hp. unfold meridiem.
    cbn [upper_first upper_second append]. reflexivity.
Qed.

(** X18.  On arguments made of code points 0..255, the alphabet of
    [string], [is_time_greater_or_equal] either raises [ValueError] or is
    given two well-formed 12-hour readings, each in some spelling (hour
    and minute in ASCII digits with or without a leading zero, a colon,
    white space of that alphabet, AM or PM in either case); it raises
    nothing else.  Arguments with code points above 255, among which
    [strptime] also takes other decimal digits and white space, are not
    covered. *)
Theorem is_time_greater_or_equal_domain (time1 time2 : string) :
  is_time_greater_or_equal time1 time2 = Raise ValueError
  \/ (written time1 /\ written time2
      /\ exists b, is_time_greater_or_equal time1 time2 = Ok b).
Proof.
  unfold is_time_greater_or_equal.
  destruct (Datetime.strptime time1) as [d1|e1] eqn:H1.
  2:{ left. now rewrite (strptime_raises_ValueError _ _ H1). }
  destruct (Datetime.strptime time2) as [d2|e2] eqn:H2.
  2:{ left. now rewrite (strptime_raises_ValueError _ _ H2). }
  right. repeat split; eauto using strptime_written.
Qed.

(** ** Sample runs of the properties with hypotheses *)

Lemma accepted_pass_and_are_new_witness :
  let batch := [Sample.slot_A; Sample.slot_good; Sample.slot_good_again;
                Sample.slot_C] in
  let acc := novel_accepted ["Mon, G"] batch in
  [entry Sample.slot_C] = map entry acc
  /\ Forall (fun el => In el batch /\ passes el = true
                       /\ ~ In (ident el) ["Mon, G"]) acc
  /\ NoDup (map ident acc).
Proof.
  apply (accepted_pass_and_are_new Sample.no_fault
           [Sample.slot_A; Sample.slot_good; Sample.slot_good_again;
            Sample.slot_C]
           Sample.seen_connection
           (snd (for_loop Sample.no_fault
                   [Sample.slot_A; Sample.slot_good; Sample.slot_good_again;
                    Sample.slot_C] [] Sample.seen_connection))
           [entry Sample.slot_C]).
  vm_compute. reflexivity.
Defined.

Lemma loop_appends_one_row_per_accepted_witness :
  let batch := [Sample.slot_C; Sample.slot_B; Sample.slot_good] in
  let c' := snd (for_loop Sample.no_fault batch [] Sample.seen_connection) in
  let t := with_row Sqlite.empty Sample.slot_good in
  let acc := novel_accepted (Sqlite.keys t) batch in
  Sqlite.working c'
  = Sqlite.mk_table (Sqlite.rows t ++ new_rows (Sqlite.last_id t) acc)%list
      (Sqlite.last_id t + Z.of_nat (List.length acc))
  /\ List.length [entry Sample.slot_C] = List.length acc
  /\ (clean Sample.seen_connection -> Sqlite.committed c' = Sqlite.working c').
Proof.
  apply (loop_appends_one_row_per_accepted Sample.no_fault
           [Sample.slot_C; Sample.slot_B; Sample.slot_good]
           Sample.seen_connection
           (snd (for_loop Sample.no_fault
                   [Sample.slot_C; Sample.slot_B; Sample.slot_good] []
                   Sample.seen_connection))
           [entry Sample.slot_C]).
  vm_compute. reflexivity.
Defined.

Lemma passing_records_are_on_file_witness :
  let c' := snd (for_loop Sample.no_fault
                   [Sample.slot_C; Sample.slot_good_again] []
                   Sample.seen_connection) in
  In (ident Sample.slot_good_again) (Sqlite.keys (Sqlite.working c'))
  /\ Sqlite.fetch_sent_email (Sqlite.working c') (ident Sample.slot_good_again)
     <> None.
Proof.
  apply (passing_records_are_on_file Sample.no_fault
           [Sample.slot_C; Sample.slot_good_again]
           Sample.seen_connection
           (snd (for_loop Sample.no_fault
                   [Sample.slot_C; Sample.slot_good_again] []
                   Sample.seen_connection))
           [entry Sample.slot_C] Sample.slot_good_again).
  - vm_compute. reflexivity.
  - cbn. auto.
  - vm_compute. reflexivity.
Defined.

Lemma main_loop_keeps_table_witness :
  let ticks :=
    [mk_tick None Sample.no_fault Sample.smtp_rejects_login
       (Ok [Sample.slot_C; Sample.slot_bad]);
     mk_tick None Sample.ninth_call_fails smtp_accepts
       (Ok [Sample.slot_C; Sample.slot_good; Sample.slot_good_again]);
     mk_tick None (fun n => Nat.eqb n 1) smtp_accepts (Ok [Sample.slot_A]);
     mk_tick (Some WebDriverException) Sample.no_fault smtp_accepts (Ok [Sample.slot_good_again])] in
  let p := mk_process Sample.fresh_world [] 0 in
  table_ok (disk (env (main_loop ticks p)))
  /\ extends (disk (env p)) (disk (env (main_loop ticks p))).
Proof.
  apply (main_loop_keeps_table
           [mk_tick None Sample.no_fault Sample.smtp_rejects_login
              (Ok [Sample.slot_C; Sample.slot_bad]);
            mk_tick None Sample.ninth_call_fails smtp_accepts
              (Ok [Sample.slot_C; Sample.slot_good; Sample.slot_good_again]);
            mk_tick None (fun n => Nat.eqb n 1) smtp_accepts (Ok [Sample.slot_A]);
            mk_tick (Some WebDriverException) Sample.no_fault smtp_accepts (Ok [Sample.slot_good_again])]
           (mk_process Sample.fresh_world [] 0)).
  repeat split; constructor.
Defined.
